(** * DRAG calibration analysis: [DragCalAnalysis]

    A shallow embedding of
    [qiskit_experiments/library/characterization/analysis/drag_analysis.py]
    and the properties of its guess generator, post-processor and quality
    evaluator.

    Numbers.  The scalars of the program are Python floats.  They are
    embedded as exact rationals ([Q]): every finite float is a rational, and
    the properties below are the ones of the arithmetic the program denotes,
    without rounding.  Division and modulo follow Python's rules for floats:
    a zero divisor raises [ZeroDivisionError], and [a % b] has the sign of
    [b].  The inputs at which a property is shown to fail are dyadic, so
    that the float computation is exact on them. *)

From Stdlib Require Import Rbase Rfunctions Rtrigo1 Qreals.
From Stdlib Require Lra.
From Stdlib Require Import QArith Qround Qabs Lqa Lia ZArith String List.
From stdpp Require Import base option list strings gmap.

Local Open Scope Q_scope.

(** ** Exceptions and the error monad *)

Inductive exn : Set :=
  | ZeroDivisionError
  | ValueError
  | IndexError
  | KeyError
  | TypeError
  | AnalysisError.

Inductive result (A : Type) : Type :=
  | Ok (a : A)
  | Raise (e : exn).
Arguments Ok {A} a.
Arguments Raise {A} e.

#[global] Instance result_ret : MRet result := fun _ a => Ok a.
#[global] Instance result_bind : MBind result := fun _ _ f m =>
  match m with
  | Ok a => f a
  | Raise e => Raise e
  end.

(** ** Python arithmetic on scalars *)

Module Py.

Definition is_zero (a : Q) : bool := Qeq_bool a 0.

(** [a / b] *)
Definition div (a b : Q) : result Q :=
  if is_zero b then Raise ZeroDivisionError else Ok (a / b).

(** [a % b]: the remainder has the sign of the divisor. *)
Definition mod_ (a b : Q) : result Q :=
  if is_zero b then Raise ZeroDivisionError
  else Ok (a - b * inject_Z (Qfloor (a / b))).

(** [abs(a)] *)
Definition abs (a : Q) : Q := Qabs a.

(** [a < b] *)
Definition lt (a b : Q) : bool :=
  match a ?= b with Lt => true | _ => false end.

(** [max(a, b)]: the first argument is kept unless the second is greater. *)
Definition max2 (a b : Q) : Q := if lt a b then b else a.

(** [min(a, b)]: the first argument is kept unless the second is smaller. *)
Definition min2 (a b : Q) : Q := if lt b a then b else a.

(** [max(xs)] and [min(xs)] of a sequence; [ValueError] when it is empty. *)
Definition max (xs : list Q) : result Q :=
  match xs with
  | [] => Raise ValueError
  | x :: rest => Ok (fold_left max2 rest x)
  end.

Definition min (xs : list Q) : result Q :=
  match xs with
  | [] => Raise ValueError
  | x :: rest => Ok (fold_left min2 rest x)
  end.

(** [xs[i]] *)
Definition getitem {A} (xs : list A) (i : nat) : result A :=
  match xs !! i with
  | Some a => Ok a
  | None => Raise IndexError
  end.

(** [xs[i] = v] *)
Definition setitem {A} (xs : list A) (i : nat) (v : A) : result (list A) :=
  if decide (i < length xs)%nat then Ok (<[i:=v]> xs) else Raise IndexError.

(** [d[k]] on a dict *)
Definition lookup_key {A} (d : gmap string A) (k : string) : result A :=
  match d !! k with
  | Some a => Ok a
  | None => Raise KeyError
  end.

End Py.

(** ** numpy helpers *)

Module Np.

(** [np.ptp(a)]: maximum minus minimum. *)
Definition ptp (a : list Q) : result Q :=
  hi ← Py.max a; lo ← Py.min a; mret (hi - lo).

(** [np.linspace(start, stop, num)] with the end point included: [num]
    samples [start + i * step], [step = (stop - start) / (num - 1)], the
    last one being [stop] itself. *)
Definition linspace (start stop : Q) (num : nat) : list Q :=
  match num with
  | O => []
  | S O => [start]
  | S div =>
      let step := (stop - start) / inject_Z (Z.of_nat div) in
      map (fun i => inject_Z (Z.of_nat i) * step + start) (seq 0 div) ++ [stop]
  end.

End Np.

(** ** The curve-analysis data model

    The classes of [qiskit_experiments.curve_analysis] that the analysis
    uses ([CurveData], [FitOptions], [FitData]) live outside this module. *)

Module Curve.

(** One batch of samples: [CurveData.x], [CurveData.y]. *)
Record CurveData : Type := { x : list Q; y : list Q }.

(** An end point of a parameter bound: a number, [np.inf] or [-np.inf]. *)
Inductive endpoint : Type :=
  | Finite (q : Q)
  | PosInf
  | NegInf.

(** Modelled from the spec: [FitOptions], a named mapping of parameter to
    initial guess ([p0]) and to a pair of bounds ([bounds]).  A parameter
    whose value is [None] in the Python dict is absent from the map. *)
Record FitOptions : Type := {
  p0 : gmap string Q;
  bounds : gmap string (endpoint * endpoint)
}.

(** Modelled from the spec: [set_if_empty(k=v)], update-if-absent: the value
    is stored only when the parameter has none yet. *)
Definition set_if_empty {A} (k : string) (v : A) (d : gmap string A)
  : gmap string A :=
  match d !! k with
  | Some _ => d
  | None => <[k:=v]> d
  end.

(** A fitted value that carries its own uncertainty, as the entries of
    [popt] and the result of [fitval(key)] do: the program reads its
    [nominal_value]; [std_dev] is its standard error. *)
Record FitVal : Type := { nominal_value : Q; std_dev : Q }.

(** [ufloat(nominal_value, std_dev)] *)
Definition ufloat (n s : Q) : FitVal := {| nominal_value := n; std_dev := s |}.

(** Modelled from the spec: [FitData], the best-fit parameter vector
    ([popt], ordered as [popt_keys], each entry a fitted value with its
    uncertainty), the covariance ([pcov]) of the parameters, and the reduced
    chi-squared.  For this analysis the fitted parameters are, in order,
    amp, freq, beta and base: the fit functions take
    [(x, amp, freq, reps0, reps1, reps2, beta, base)] and the three
    repetition counts are fixed. *)
Record FitData : Type := {
  popt : list FitVal;
  popt_keys : list string;
  pcov : list (list Q);
  reduced_chisq : Q
}.

Definition with_popt (fd : FitData) (v : list FitVal) : FitData :=
  {| popt := v; popt_keys := popt_keys fd;
     pcov := pcov fd; reduced_chisq := reduced_chisq fd |}.

(** [keys.index(key)] *)
Fixpoint index (keys : list string) (key : string) : result nat :=
  match keys with
  | [] => Raise ValueError
  | k :: rest =>
      if decide (k = key) then Ok O else i ← index rest key; mret (S i)
  end.

(** Modelled from the spec: [FitData.fitval(key)], the fitted value of the
    named parameter together with its uncertainty: the entry of [popt] at
    the position of the key. *)
Definition fitval (fd : FitData) (key : string) : result FitVal :=
  i ← index (popt_keys fd) key;
  Py.getitem (popt fd) i.

End Curve.

(** ** The analysis class *)

Module DragCalAnalysis.
Import Curve.

(** The state of the analysis object that the methods read: the formatted
    data of each series, in the order of [__series__], and
    [options.fixed_parameters]. *)
Record Analysis : Type := {
  series : list (string * CurveData);
  fixed_parameters : gmap string Z
}.

(** [_default_options]: [fixed_parameters = {"reps0": 1, "reps1": 3, "reps2": 5}] *)
Definition default_fixed_parameters : gmap string Z :=
  <["reps2":=5%Z]> (<["reps1":=3%Z]> (<["reps0":=1%Z]> ∅)).

(** [self._data(series_name)]: the samples of one series; an error when the
    analysis has no series of that name. *)
Fixpoint find_series (l : list (string * CurveData)) (name : string)
  : result CurveData :=
  match l with
  | [] => Raise AnalysisError
  | (n, d) :: rest => if decide (n = name) then Ok d else find_series rest name
  end.

Definition _data (self : Analysis) (series_name : string) : result CurveData :=
  find_series (series self) series_name.

(** [self._data()]: the samples of all the series together. *)
Definition _data_all (self : Analysis) : CurveData :=
  {| x := flat_map (fun s => x s.2) (series self);
     y := flat_map (fun s => y s.2) (series self) |}.

(** [max(a, *rest, key=key)]: the first item whose key is the largest. *)
Fixpoint max_scan {A} (key : A → result Z) (best : A) (kbest : Z)
    (rest : list A) : result A :=
  match rest with
  | [] => Ok best
  | c :: rest' =>
      kc ← key c;
      if (kbest <? kc)%Z then max_scan key c kc rest'
      else max_scan key best kbest rest'
  end.

Definition max_by_key {A} (key : A → result Z) (a : A) (rest : list A)
  : result A :=
  ka ← key a; max_scan key a ka rest.

(** [a or b] on an optional scalar: [a] when it is set and non-zero. *)
Definition or_else (a : option Q) (b : Q) : Q :=
  match a with
  | Some v => if Py.is_zero v then b else v
  | None => b
  end.

(** The amplitude factors of the fan-out: [(-1, -0.5, -0.25)]. *)
Definition amp_factors : list Q := [-1; -(1#2); -(1#4)].

(** Line 213: [((beta + 1 / freq / 2) % (1 / freq)) - 1 / freq / 2] *)
Definition canonical_beta (beta freq : Q) : result Q :=
  a ← Py.div 1 freq;
  b ← Py.div a 2;
  c ← Py.div 1 freq;
  m ← Py.mod_ (beta + b) c;
  d ← Py.div 1 freq;
  e ← Py.div d 2;
  mret (m - e).

Section Collaborators.

(** The arithmetic of line 213 is done on two entries of [popt], which carry
    uncertainties.  Its nominal value is the float computation on the
    nominal values; its standard error is worked out by the uncertainties
    package, by linear error propagation from the fit result, and is not
    computed in this module. *)
Variable propagated_std_dev : FitData → Q.

(** [_post_process_fit_result]: the fit result is updated in place, at
    [popt[2]], and returned.  The entry written is a new fitted value: the
    canonical beta with the uncertainty propagated to it. *)
Definition _post_process_fit_result (fit_result : FitData) : result FitData :=
  beta ← Py.getitem (popt fit_result) 2;
  freq ← Py.getitem (popt fit_result) 1;
  v ← canonical_beta (nominal_value beta) (nominal_value freq);
  popt' ← Py.setitem (popt fit_result) 2
            (ufloat v (propagated_std_dev fit_result));
  mret (with_popt fit_result popt').

(** [curve.guess.frequency(x, y)]: the spectral frequency estimate. *)
Variable frequency : list Q → list Q → Q.

(** [curve.is_error_not_significant(val)]: the uncertainty comparison. *)
Variable is_error_not_significant : FitVal → bool.

(** [_generate_fit_guesses] *)
Definition _generate_fit_guesses (self : Analysis) (user_opt : FitOptions)
  : result (list FitOptions) :=
  s0 ← _data self "series-0";
  let x_data := x s0 in
  min_beta ← Py.min x_data;
  max_beta ← Py.max x_data;
  sel ← max_by_key (fun l => Py.lookup_key (fixed_parameters self) l.2)
        ("series-0", "reps0") [("series-1", "reps1"); ("series-2", "reps2")];
  let series_label := sel.1 in
  let reps_label := sel.2 in
  curve_data ← _data self series_label;
  reps2 ← Py.lookup_key (fixed_parameters self) reps_label;
  freqs_guess ← Py.div (frequency (x curve_data) (y curve_data)) (inject_Z reps2);
  let p0_1 := set_if_empty "freq" freqs_guess (p0 user_opt) in
  hi ← Py.max x_data;
  lo ← Py.min x_data;
  avg_x ← Py.div (hi + lo) 2;
  let span_x := hi - lo in
  freq ← match p0_1 !! "freq" with Some f => Ok f | None => Raise TypeError end;
  q ← Py.div 5 freq;
  let beta_bound := Py.max2 q span_x in
  let ys := y (_data_all self) in
  ptp_y ← Np.ptp ys;
  ymin ← Py.min ys;
  ymax ← Py.max ys;
  let bounds_1 :=
    set_if_empty "base" (Finite (ymin - ptp_y), Finite (ymax + ptp_y))
      (set_if_empty "beta" (Finite (avg_x - beta_bound), Finite (avg_x + beta_bound))
        (set_if_empty "freq" (Finite 0, PosInf)
          (set_if_empty "amp" (Finite (-2 * ptp_y), Finite 0) (bounds user_opt)))) in
  yhi ← Py.max ys;
  ylo ← Py.min ys;
  base_guess ← Py.div (yhi - ylo) 2;
  let p0_2 := set_if_empty "base" (or_else (p0_1 !! "amp") base_guess) p0_1 in
  mret (flat_map (fun amp_factor =>
          map (fun beta_guess =>
                 {| p0 := set_if_empty "beta" beta_guess
                            (set_if_empty "amp" (ptp_y * amp_factor) p0_2);
                    bounds := bounds_1 |})
              (Np.linspace min_beta max_beta 20))
        amp_factors).

(** [_evaluate_quality] *)
Definition _evaluate_quality (fit_data : FitData) : result string :=
  fit_beta ← fitval fit_data "beta";
  fit_freq ← fitval fit_data "freq";
  let c1 := Py.lt (reduced_chisq fit_data) 3 in
  a ← Py.div 1 (nominal_value fit_freq);
  b ← Py.div a 2;
  let c2 := Py.lt (Py.abs (nominal_value fit_beta)) b in
  let c3 := is_error_not_significant fit_beta in
  if forallb id [c1; c2; c3] then Ok "good" else Ok "bad".

End Collaborators.

End DragCalAnalysis.

(** ** The series model

    The fit functions are real-valued; they are embedded over the real
    numbers, where the cosine lives.  A rational scalar of the analysis is
    read as a real through [Q2R]. *)

Module FitFunction.

(** Modelled from the spec: [curve_analysis.fit_function.cos], the cosine
    [amp * cos(2 pi freq x + phase) + baseline] that each series of the
    analysis is fitted to. *)
Definition cos (x amp freq phase baseline : R) : R :=
  (amp * Rtrigo_def.cos (2 * PI * freq * x + phase) + baseline)%R.

End FitFunction.

Module DragSeries.

(** The [fit_func] of the three entries of [__series__]. *)
Definition series_0 (x amp freq reps0 reps1 reps2 beta base : R) : R :=
  FitFunction.cos x amp (reps0 * freq) (-2 * PI * reps0 * freq * beta) base.

Definition series_1 (x amp freq reps0 reps1 reps2 beta base : R) : R :=
  FitFunction.cos x amp (reps1 * freq) (-2 * PI * reps1 * freq * beta) base.

Definition series_2 (x amp freq reps0 reps1 reps2 beta base : R) : R :=
  FitFunction.cos x amp (reps2 * freq) (-2 * PI * reps2 * freq * beta) base.

End DragSeries.

Import Curve DragCalAnalysis.

(** * Vocabulary of the properties *)

(** The mathematical floored modulo, [a mod b = a - b * floor (a / b)]. *)
Definition Qmod (a b : Q) : Q := a - b * inject_Z (Qfloor (a / b)).

(** The canonical value in the spec's words:
    [((beta + 1/(2 freq)) mod (1/freq)) - 1/(2 freq)]. *)
Definition spec_canonical (beta freq : Q) : Q :=
  Qmod (beta + 1 / (2 * freq)) (1 / freq) - 1 / (2 * freq).

(** The value that line 213 computes. *)
Definition line_213 (beta freq : Q) : Q :=
  Qmod (beta + 1 / freq / 2) (1 / freq) - 1 / freq / 2.

(** The fit result that the post-processor returns when it stores [n]: the
    given one with [popt[2]] replaced by [n] and the uncertainty propagated
    to it. *)
Definition stored (std : FitData → Q) (fd : FitData) (n : Q) : FitData :=
  with_popt fd (<[2%nat:=ufloat n (std fd)]> (popt fd)).

(** The three criteria, in the spec's words. *)
Definition criteria_hold (is_error_not_significant : FitVal → bool)
    (chisq : Q) (beta freq : FitVal) : Prop :=
  chisq < 3
  ∧ Qabs (nominal_value beta) < 1 / (2 * nominal_value freq)
  ∧ is_error_not_significant beta = true.

(** A highest and a lowest element of a sequence, as [max] and [min]
    find them. *)
Definition list_hi (xs : list Q) : Q := fold_left Py.max2 (tail xs) (hd 0 xs).
Definition list_lo (xs : list Q) : Q := fold_left Py.min2 (tail xs) (hd 0 xs).

(** The item that [max(..., key=...)] keeps among three, given their keys. *)
Definition pick {A} (r0 r1 r2 : Z) (a0 a1 a2 : A) : A :=
  if (r0 <? r1)%Z then (if (r1 <? r2)%Z then a2 else a1)
  else (if (r0 <? r2)%Z then a2 else a0).

(** One candidate of the fan-out. *)
Definition candidate (p0_2 : gmap string Q)
    (bounds_1 : gmap string (endpoint * endpoint)) (ptp_y : Q)
    (amp_factor beta_guess : Q) : FitOptions :=
  {| p0 := set_if_empty "beta" beta_guess
             (set_if_empty "amp" (ptp_y * amp_factor) p0_2);
     bounds := bounds_1 |}.

(** * Concrete fit results and a concrete analysis *)

(** A fitted parameter vector with a standard error of 1/128 on each entry. *)
Definition fitted (values : list Q) : list FitVal :=
  (fun v => ufloat v (1#128)) <$> values.

(** An uncertainty propagation for the runs: beta's standard error grows
    by that of freq. *)
Definition demo_std_dev (fd : FitData) : Q :=
  default 0 (std_dev <$> popt fd !! 2%nat)
  + default 0 (std_dev <$> popt fd !! 1%nat).

Definition fit_dyadic : FitData :=
  {| popt := fitted [-1; 1; 1#2; 0];
     popt_keys := ["amp"; "freq"; "beta"; "base"]; pcov := [];
     reduced_chisq := 1 |}.

(** The value stored at [popt[2]] by a run, in lowest terms. *)
Definition beta_of (r : result FitData) : option Q :=
  match r with
  | Ok fd => (fun v => Qred (nominal_value v)) <$> popt fd !! 2%nat
  | Raise _ => None
  end.

Definition fit_negative_freq : FitData :=
  {| popt := fitted [-1; -1; 1#4; 0];
     popt_keys := ["amp"; "freq"; "beta"; "base"]; pcov := [];
     reduced_chisq := 1 |}.

Definition fit_two_periods : FitData :=
  {| popt := fitted [-1; 1#2; 1#8; 0];
     popt_keys := ["amp"; "freq"; "beta"; "base"]; pcov := [[1]];
     reduced_chisq := 1#2 |}.

Definition fit_zero_freq : FitData :=
  {| popt := fitted [-1; 0; 1#4; 0];
     popt_keys := ["amp"; "freq"; "beta"; "base"]; pcov := [];
     reduced_chisq := 10 |}.

Definition demo_series (k : Q) : CurveData :=
  {| x := [0; 1#2; 1; 3#2]; y := [1; k; 0; k] |}.

Definition demo_analysis : Analysis :=
  {| series := [("series-0", demo_series (3#4)); ("series-1", demo_series (1#2));
                ("series-2", demo_series (1#4))];
     fixed_parameters := default_fixed_parameters |}.

Definition demo_frequency : list Q → list Q → Q := fun _ _ => 5#2.

Definition user_none : FitOptions := {| p0 := ∅; bounds := ∅ |}.

Definition user_amp : FitOptions :=
  {| p0 := <["amp":=-(1#2)]> ∅; bounds := ∅ |}.

Definition fit_short : FitData :=
  {| popt := fitted [-1; 1#2]; popt_keys := ["amp"; "freq"];
     pcov := []; reduced_chisq := 1 |}.

Definition empty_analysis : Analysis :=
  {| series := [("series-0", {| x := []; y := [] |})];
     fixed_parameters := default_fixed_parameters |}.

Definition analysis_without_reps1 : Analysis :=
  {| series := series demo_analysis;
     fixed_parameters := <["reps2":=5%Z]> (<["reps0":=1%Z]> ∅) |}.

Definition user_zero_freq : FitOptions :=
  {| p0 := <["freq":=0]> ∅; bounds := ∅ |}.

Definition user_amp_bounded : FitOptions :=
  {| p0 := <["amp":=-(1#2)]> ∅;
     bounds := <["amp":=(Finite (-1), Finite 0)]> ∅ |}.

(** * Properties *)

(** ** Floor and the floored remainder on rationals *)

Section Floor.

Lemma floor_unique (x : Q) (n : Z) :
  inject_Z n <= x → x < inject_Z (n + 1) → Qfloor x = n.
Proof.
  intros Hlo Hhi.
  pose proof (Qfloor_le x) as Hf. pose proof (Qlt_floor x) as Hc.
  assert (H1 : (n < Qfloor x + 1)%Z).
  { rewrite Zlt_Qlt. eapply Qle_lt_trans; eauto. }
  assert (H2 : (Qfloor x < n + 1)%Z).
  { rewrite Zlt_Qlt. eapply Qle_lt_trans; eauto. }
  lia.
Qed.

Lemma floor_add_Z (x : Q) (k : Z) : Qfloor (x + inject_Z k) = (Qfloor x + k)%Z.
Proof.
  apply floor_unique.
  - rewrite inject_Z_plus. pose proof (Qfloor_le x). lra.
  - replace (Qfloor x + k + 1)%Z with ((Qfloor x + 1) + k)%Z by lia.
    rewrite inject_Z_plus. pose proof (Qlt_floor x). lra.
Qed.

#[global] Instance Qmod_proper : Proper (Qeq ==> Qeq ==> Qeq) Qmod.
Proof.
  intros a a' Ha b b' Hb. unfold Qmod.
  assert (E : a / b == a' / b') by (rewrite Ha, Hb; reflexivity).
  rewrite (Qfloor_comp _ _ E), Ha, Hb. reflexivity.
Qed.

Lemma Qmod_pos_range (a b : Q) : 0 < b → 0 <= Qmod a b ∧ Qmod a b < b.
Proof.
  intros Hb. unfold Qmod.
  pose proof (Qfloor_le (a / b)) as Hf. pose proof (Qlt_floor (a / b)) as Hc.
  rewrite inject_Z_plus in Hc.
  assert (Ha : a == b * (a / b)) by (field; lra).
  set (f := inject_Z (Qfloor (a / b))) in *. set (t := a / b) in *.
  split.
  - assert (b * f <= b * t) by (apply Qmult_le_l; auto). lra.
  - assert (b * t < b * (f + inject_Z 1)) by (apply Qmult_lt_l; auto).
    change (inject_Z 1) with 1 in *. lra.
Qed.

Lemma Qmod_neg_range (a b : Q) : b < 0 → b < Qmod a b ∧ Qmod a b <= 0.
Proof.
  intros Hb. unfold Qmod.
  pose proof (Qfloor_le (a / b)) as Hf. pose proof (Qlt_floor (a / b)) as Hc.
  rewrite inject_Z_plus in Hc.
  assert (Ha : a == b * (a / b)) by (field; lra).
  set (f := inject_Z (Qfloor (a / b))) in *. set (t := a / b) in *.
  change (inject_Z 1) with 1 in *.
  assert (H1 : (-b) * f <= (-b) * t) by (apply Qmult_le_l; auto; lra).
  assert (H2 : (-b) * t < (-b) * (f + 1)) by (apply Qmult_lt_l; auto; lra).
  split; lra.
Qed.

Lemma Qmod_shift (a b : Q) (k : Z) :
  ¬ b == 0 → Qmod (a + inject_Z k * b) b == Qmod a b.
Proof.
  intros Hb. unfold Qmod.
  assert (E : (a + inject_Z k * b) / b == a / b + inject_Z k) by (field; auto).
  rewrite (Qfloor_comp _ _ E), floor_add_Z, inject_Z_plus. ring.
Qed.

End Floor.

(** ** Python arithmetic *)

Section PyFacts.

Lemma is_zero_false (a : Q) : ¬ a == 0 → Py.is_zero a = false.
Proof.
  intros H. unfold Py.is_zero. destruct (Qeq_bool a 0) eqn:E; [|done].
  apply Qeq_bool_eq in E. contradiction.
Qed.

Lemma is_zero_true (a : Q) : a == 0 → Py.is_zero a = true.
Proof. apply Qeq_eq_bool. Qed.

Lemma div_ok (a b : Q) : ¬ b == 0 → Py.div a b = Ok (a / b).
Proof. intros H. unfold Py.div. by rewrite is_zero_false. Qed.

Lemma div_zero (a b : Q) : b == 0 → Py.div a b = Raise ZeroDivisionError.
Proof. intros H. unfold Py.div. by rewrite is_zero_true. Qed.

Lemma mod_ok (a b : Q) : ¬ b == 0 → Py.mod_ a b = Ok (Qmod a b).
Proof. intros H. unfold Py.mod_. by rewrite is_zero_false. Qed.

Lemma inv_nonzero (f : Q) : ¬ f == 0 → ¬ 1 / f == 0.
Proof.
  intros Hf H. apply Hf.
  assert (E : f == f * f * (1 / f)) by (field; auto).
  rewrite E, H. ring.
Qed.

Lemma lt_spec (a b : Q) : Py.lt a b = true ↔ a < b.
Proof.
  unfold Py.lt. destruct (a ?= b) eqn:E.
  - apply Qeq_alt in E. split; [done | intros; lra].
  - apply Qlt_alt in E. done.
  - apply Qgt_alt in E. split; [done | intros; lra].
Qed.

End PyFacts.

(** ** The post-processor *)

Section PostProcessor.

Lemma canonical_beta_ok (beta freq : Q) :
  ¬ freq == 0 → canonical_beta beta freq = Ok (line_213 beta freq).
Proof.
  intros Hf. unfold canonical_beta, line_213.
  pose proof (inv_nonzero _ Hf) as Hi.
  rewrite !(div_ok 1 freq) by done. cbn.
  rewrite !(div_ok (1 / freq) 2) by (intros H; discriminate). cbn.
  rewrite mod_ok by done. reflexivity.
Qed.

Lemma canonical_beta_zero (beta freq : Q) :
  freq == 0 → canonical_beta beta freq = Raise ZeroDivisionError.
Proof. intros Hf. unfold canonical_beta. by rewrite div_zero. Qed.

Lemma line_213_spec (beta freq : Q) :
  ¬ freq == 0 → line_213 beta freq == spec_canonical beta freq.
Proof.
  intros Hf. unfold line_213, spec_canonical.
  assert (E : 1 / freq / 2 == 1 / (2 * freq)) by (field; auto).
  rewrite E. reflexivity.
Qed.

Lemma post_process_ok (std : FitData → Q) (fd : FitData) (beta freq : Q) :
  nominal_value <$> popt fd !! 1%nat = Some freq →
  nominal_value <$> popt fd !! 2%nat = Some beta → ¬ freq == 0 →
  _post_process_fit_result std fd = Ok (stored std fd (line_213 beta freq)).
Proof.
  intros H1 H2 Hf. unfold _post_process_fit_result, Py.getitem, Py.setitem.
  apply fmap_Some in H1 as (fe & H1 & ->).
  apply fmap_Some in H2 as (be & H2 & ->).
  rewrite H2, H1. cbn. rewrite canonical_beta_ok by done. cbn.
  apply lookup_lt_Some in H2. by rewrite decide_True.
Qed.

Lemma post_process_zero (std : FitData → Q) (fd : FitData) (beta freq : Q) :
  nominal_value <$> popt fd !! 1%nat = Some freq →
  nominal_value <$> popt fd !! 2%nat = Some beta → freq == 0 →
  _post_process_fit_result std fd = Raise ZeroDivisionError.
Proof.
  intros H1 H2 Hf. unfold _post_process_fit_result, Py.getitem.
  apply fmap_Some in H1 as (fe & H1 & ->).
  apply fmap_Some in H2 as (be & H2 & ->).
  rewrite H2, H1. cbn. by rewrite canonical_beta_zero.
Qed.

(** What a successful run tells about its input and its output. *)
Lemma post_process_inv (std : FitData → Q) (fd r : FitData) :
  _post_process_fit_result std fd = Ok r →
  ∃ be fe : FitVal,
    popt fd !! 2%nat = Some be ∧ popt fd !! 1%nat = Some fe
    ∧ ¬ nominal_value fe == 0
    ∧ r = stored std fd (line_213 (nominal_value be) (nominal_value fe)).
Proof.
  intros Hr. pose proof Hr as Hr0.
  unfold _post_process_fit_result, Py.getitem in Hr.
  destruct (popt fd !! 2%nat) as [be|] eqn:E2; [|discriminate].
  destruct (popt fd !! 1%nat) as [fe|] eqn:E1; [|discriminate].
  exists be, fe. split; [done|]. split; [done|].
  destruct (Qeq_dec (nominal_value fe) 0) as [Hz | Hnz].
  - cbn in Hr. rewrite canonical_beta_zero in Hr by done. discriminate.
  - split; [done|].
    rewrite (post_process_ok std fd (nominal_value be) (nominal_value fe))
      in Hr0; [congruence | by rewrite E1 | by rewrite E2 | done].
Qed.

Lemma stored_lookup_beta (std : FitData → Q) (fd : FitData) (n : Q) :
  (2 < length (popt fd))%nat →
  popt (stored std fd n) !! 2%nat = Some (ufloat n (std fd)).
Proof. intros Hlen. cbn. by rewrite list_lookup_insert_eq. Qed.

Lemma stored_lookup_other (std : FitData → Q) (fd : FitData) (n : Q) (i : nat) :
  i ≠ 2%nat → popt (stored std fd n) !! i = popt fd !! i.
Proof. intros Hi. cbn. by rewrite list_lookup_insert_ne. Qed.

Example post_process_dyadic :
  beta_of (_post_process_fit_result demo_std_dev fit_dyadic) = Some (-(1#2)).
Proof. vm_compute. reflexivity. Qed.

End PostProcessor.

(** [lra] reads a quotient by a constant once it is written as a product;
    a period [1 / f] is an unknown of its own. *)
Ltac qlra :=
  repeat match goal with
         | |- context [1 / ?f] =>
             is_var f; let p := fresh "p" in set (p := 1 / f) in *; clearbody p
         | H : context [1 / ?f] |- _ =>
             is_var f; let p := fresh "p" in set (p := 1 / f) in *; clearbody p
         end;
  unfold Qdiv in *; change (/ 2) with (1 # 2) in *; lra.

Section CanonicalRange.

Lemma period_pos (freq : Q) : 0 < freq → 0 < 1 / freq.
Proof.
  intros Hf. unfold Qdiv. rewrite Qmult_1_l. by apply Qinv_lt_0_compat.
Qed.

Lemma period_neg (freq : Q) : freq < 0 → 1 / freq < 0.
Proof.
  intros Hf.
  assert (H : 0 < 1 / - freq) by (apply period_pos; lra).
  assert (E : 1 / - freq == - (1 / freq)) by (field; lra).
  rewrite E in H. qlra.
Qed.

Lemma half_period (freq : Q) : ¬ freq == 0 → 1 / (2 * freq) == 1 / freq / 2.
Proof. intros Hf. field. auto. Qed.

Lemma line_213_range_pos (beta freq : Q) :
  0 < freq →
  - (1 / (2 * freq)) <= line_213 beta freq ∧ line_213 beta freq < 1 / (2 * freq).
Proof.
  intros Hf. unfold line_213.
  pose proof (Qmod_pos_range (beta + 1 / freq / 2) (1 / freq) (period_pos _ Hf)).
  rewrite half_period by lra. qlra.
Qed.

Lemma line_213_range_neg (beta freq : Q) :
  freq < 0 →
  1 / (2 * freq) < line_213 beta freq ∧ line_213 beta freq <= - (1 / (2 * freq)).
Proof.
  intros Hf. unfold line_213.
  pose proof (Qmod_neg_range (beta + 1 / freq / 2) (1 / freq) (period_neg _ Hf)).
  rewrite half_period by lra. qlra.
Qed.

Lemma line_213_congruent (beta freq : Q) :
  ∃ k : Z, line_213 beta freq == beta + inject_Z k * (1 / freq).
Proof.
  exists (- Qfloor ((beta + 1 / freq / 2) / (1 / freq)))%Z.
  unfold line_213, Qmod. rewrite inject_Z_opp. ring.
Qed.

Lemma line_213_periodic (beta freq : Q) (k : Z) :
  ¬ freq == 0 →
  line_213 (beta + inject_Z k / freq) freq == line_213 beta freq.
Proof.
  intros Hf. unfold line_213.
  assert (E : beta + inject_Z k / freq + 1 / freq / 2
              == (beta + 1 / freq / 2) + inject_Z k * (1 / freq)) by (field; auto).
  rewrite E, Qmod_shift by (by apply inv_nonzero). reflexivity.
Qed.

(** A value of the centred window is no farther from zero than any of its
    translates by a whole number of periods. *)
Lemma centred_is_closest (n p : Q) (j : Z) :
  0 < p → - (p / 2) <= n → n < p / 2 → Qabs n <= Qabs (n + inject_Z j * p).
Proof.
  intros Hp Hlo Hhi.
  assert (Hn : Qabs n <= p / 2) by (apply Qabs_Qle_condition; split; qlra).
  destruct (Z.lt_trichotomy j 0) as [Hj | [-> | Hj]].
  - assert (Hj' : inject_Z j <= -1) by (change (-1) with (inject_Z (-1)); rewrite <- Zle_Qle; lia).
    assert (H : 0 <= (-1 - inject_Z j) * p) by (apply Qmult_le_0_compat; lra).
    apply Qle_trans with (- (n + inject_Z j * p)); [qlra|].
    rewrite <- Qabs_opp. apply Qle_Qabs.
  - assert (E : n + inject_Z 0 * p == n) by ring. rewrite E. qlra.
  - assert (Hj' : 1 <= inject_Z j) by (change 1 with (inject_Z 1); rewrite <- Zle_Qle; lia).
    assert (H : 0 <= (inject_Z j - 1) * p) by (apply Qmult_le_0_compat; lra).
    apply Qle_trans with (n + inject_Z j * p); [qlra|]. apply Qle_Qabs.
Qed.

Lemma line_213_closest (beta freq : Q) (k : Z) :
  0 < freq → Qabs (line_213 beta freq) <= Qabs (beta + inject_Z k / freq).
Proof.
  intros Hf.
  destruct (line_213_congruent beta freq) as [k0 Hk0].
  destruct (line_213_range_pos beta freq Hf) as [Hlo Hhi].
  rewrite half_period in Hlo, Hhi by lra.
  assert (E : beta + inject_Z k / freq
              == line_213 beta freq + inject_Z (k - k0) * (1 / freq)).
  { rewrite Hk0. unfold Z.sub. rewrite inject_Z_plus, inject_Z_opp. field. lra. }
  rewrite E. apply centred_is_closest; auto using period_pos.
Qed.

End CanonicalRange.

Section PostProcessorClaims.

(** C1, as the spec words it, fails at the lower end of the window: with
    [freq = 1] and [beta = 1/2] the post-processor stores [-1/2], which is
    not in the interval (-1/2, 1/2]. *)
Lemma post_process_window_lower_end :
  nominal_value <$> popt fit_dyadic !! 1%nat = Some 1
  ∧ nominal_value <$> popt fit_dyadic !! 2%nat = Some (1#2) ∧ 0 < 1 ∧
  ∃ r n, _post_process_fit_result demo_std_dev fit_dyadic = Ok r
         ∧ nominal_value <$> popt r !! 2%nat = Some n
         ∧ ¬ (- (1 / (2 * 1)) < n ∧ n <= 1 / (2 * 1)).
Proof.
  repeat split.
  eexists _, _. split; [vm_compute; reflexivity|]. split; [reflexivity|].
  intros [H _]. vm_compute in H. discriminate.
Qed.

(** C1 (amended): for a fit result with fitted frequency [freq > 0] the
    post-processor replaces beta with
    [((beta + 1/(2 freq)) mod (1/freq)) - 1/(2 freq)]; the new value lies in
    the centred interval [-1/(2 freq), 1/(2 freq)), closed below and open
    above, differs from beta by a whole number of periods [1/freq], and no
    member of beta's periodic family is closer to zero. *)
Theorem post_process_canonical_window (std : FitData → Q) (fd : FitData)
    (beta freq : Q) :
  nominal_value <$> popt fd !! 1%nat = Some freq →
  nominal_value <$> popt fd !! 2%nat = Some beta → 0 < freq →
  ∃ n : Q,
    _post_process_fit_result std fd = Ok (stored std fd n)
    ∧ n == spec_canonical beta freq
    ∧ - (1 / (2 * freq)) <= n ∧ n < 1 / (2 * freq)
    ∧ (∃ k : Z, n == beta + inject_Z k * (1 / freq))
    ∧ (∀ k : Z, Qabs n <= Qabs (beta + inject_Z k / freq)).
Proof.
  intros H1 H2 Hf. exists (line_213 beta freq).
  assert (Hnz : ¬ freq == 0) by lra.
  destruct (line_213_range_pos beta freq Hf) as [Hlo Hhi].
  repeat split; auto using post_process_ok, line_213_spec, line_213_congruent.
  intros k. by apply line_213_closest.
Qed.

Lemma post_process_canonical_window_witness :
  nominal_value <$> popt fit_two_periods !! 1%nat = Some (1#2)
  ∧ nominal_value <$> popt fit_two_periods !! 2%nat = Some (1#8) ∧ 0 < 1#2
  ∧ ∃ n : Q,
      _post_process_fit_result demo_std_dev fit_two_periods
      = Ok (stored demo_std_dev fit_two_periods n)
      ∧ n == spec_canonical (1#8) (1#2)
      ∧ - (1 / (2 * (1#2))) <= n ∧ n < 1 / (2 * (1#2))
      ∧ (∃ k : Z, n == (1#8) + inject_Z k * (1 / (1#2)))
      ∧ (∀ k : Z, Qabs n <= Qabs ((1#8) + inject_Z k / (1#2))).
Proof.
  split; [reflexivity|]. split; [reflexivity|]. split; [reflexivity|].
  apply (post_process_canonical_window demo_std_dev fit_two_periods (1#8) (1#2));
    reflexivity.
Defined.

(** C2: for [freq > 0] and an integer [k], post-processing a fit whose beta
    is [beta + k/freq] stores the same value as post-processing the fit
    whose beta is [beta]: the two are equal as rationals, hence identical
    in lowest terms. *)
Theorem post_process_periodic (std : FitData → Q) (fd : FitData)
    (beta freq e : Q) (k : Z) :
  nominal_value <$> popt fd !! 1%nat = Some freq →
  nominal_value <$> popt fd !! 2%nat = Some beta → 0 < freq →
  let fd_k :=
    with_popt fd (<[2%nat:=ufloat (beta + inject_Z k / freq) e]> (popt fd)) in
  ∃ n n_k : Q,
    _post_process_fit_result std fd = Ok (stored std fd n)
    ∧ _post_process_fit_result std fd_k = Ok (stored std fd_k n_k)
    ∧ n_k == n ∧ Qred n_k = Qred n.
Proof.
  intros H1 H2 Hf fd_k.
  assert (Hnz : ¬ freq == 0) by lra.
  exists (line_213 beta freq), (line_213 (beta + inject_Z k / freq) freq).
  pose proof (line_213_periodic beta freq k Hnz) as Hp.
  split; [by apply post_process_ok|].
  split; [|split; [done | by apply Qred_complete]].
  assert (Hlen : (2 < length (popt fd))%nat).
  { apply fmap_Some in H2 as (be & H2 & _). by eapply lookup_lt_Some. }
  apply post_process_ok; [| | done]; unfold fd_k; cbn.
  - by rewrite list_lookup_insert_ne.
  - by rewrite list_lookup_insert_eq.
Qed.

Lemma post_process_periodic_witness :
  nominal_value <$> popt fit_two_periods !! 1%nat = Some (1#2)
  ∧ nominal_value <$> popt fit_two_periods !! 2%nat = Some (1#8) ∧ 0 < 1#2
  ∧ let fd_k :=
      with_popt fit_two_periods
        (<[2%nat:=ufloat ((1#8) + inject_Z 2 / (1#2)) (1#128)]>
           (popt fit_two_periods)) in
    ∃ n n_k : Q,
      _post_process_fit_result demo_std_dev fit_two_periods
      = Ok (stored demo_std_dev fit_two_periods n)
      ∧ _post_process_fit_result demo_std_dev fd_k
        = Ok (stored demo_std_dev fd_k n_k)
      ∧ n_k == n ∧ Qred n_k = Qred n.
Proof.
  split; [reflexivity|]. split; [reflexivity|]. split; [reflexivity|].
  apply (post_process_periodic demo_std_dev fit_two_periods (1#8) (1#2)
           (1#128) 2);
    reflexivity.
Defined.

(** C3: for [freq > 0] the value the post-processor stores for beta has
    absolute value at most [1/(2 freq)]. *)
Theorem post_process_abs_bound (std : FitData → Q) (fd : FitData)
    (beta freq : Q) :
  nominal_value <$> popt fd !! 1%nat = Some freq →
  nominal_value <$> popt fd !! 2%nat = Some beta → 0 < freq →
  ∃ n : Q,
    _post_process_fit_result std fd = Ok (stored std fd n)
    ∧ Qabs n <= 1 / (2 * freq).
Proof.
  intros H1 H2 Hf. exists (line_213 beta freq).
  split; [apply post_process_ok; auto; lra|].
  destruct (line_213_range_pos beta freq Hf).
  apply Qabs_Qle_condition. split; lra.
Qed.

Lemma post_process_abs_bound_witness :
  nominal_value <$> popt fit_dyadic !! 1%nat = Some 1
  ∧ nominal_value <$> popt fit_dyadic !! 2%nat = Some (1#2) ∧ 0 < 1
  ∧ ∃ n : Q,
      _post_process_fit_result demo_std_dev fit_dyadic
      = Ok (stored demo_std_dev fit_dyadic n)
      ∧ Qabs n <= 1 / (2 * 1).
Proof.
  split; [reflexivity|]. split; [reflexivity|]. split; [reflexivity|].
  apply (post_process_abs_bound demo_std_dev fit_dyadic (1#2) 1); reflexivity.
Defined.

End PostProcessorClaims.

Section PostProcessorErrors.

(** C8, as the spec words it, fails for a negative frequency: with
    [freq = -1] and [beta = 1/4] the post-processor raises nothing and
    returns a fit result, with beta [1/4]. *)
Lemma post_process_negative_freq_returns :
  nominal_value <$> popt fit_negative_freq !! 1%nat = Some (-1) ∧ -1 <= 0
  ∧ (¬ ∃ e, _post_process_fit_result demo_std_dev fit_negative_freq = Raise e)
  ∧ beta_of (_post_process_fit_result demo_std_dev fit_negative_freq)
    = Some (1#4).
Proof.
  split; [reflexivity|]. split; [discriminate|]. split.
  - intros [e He]. vm_compute in He. discriminate.
  - vm_compute. reflexivity.
Qed.

(** C8 (amended): the post-processor has no guard on the sign of the fitted
    frequency.  At [freq = 0] it fails, with the [ZeroDivisionError] of
    [1 / freq], and returns no result.  At [freq < 0] it raises nothing: it
    returns the fit result with beta replaced by the value of the same
    formula, taken with the negative period [1/freq], which lies in
    (1/(2 freq), -1/(2 freq)]. *)
Theorem post_process_nonpositive_freq (std : FitData → Q) (fd : FitData)
    (beta freq : Q) :
  nominal_value <$> popt fd !! 1%nat = Some freq →
  nominal_value <$> popt fd !! 2%nat = Some beta →
  (freq == 0 → _post_process_fit_result std fd = Raise ZeroDivisionError)
  ∧ (freq < 0 →
     ∃ n : Q,
       _post_process_fit_result std fd = Ok (stored std fd n)
       ∧ n == spec_canonical beta freq
       ∧ 1 / (2 * freq) < n ∧ n <= - (1 / (2 * freq))).
Proof.
  intros H1 H2. split.
  - intros Hz. by eapply post_process_zero.
  - intros Hf. exists (line_213 beta freq).
    assert (Hnz : ¬ freq == 0) by lra.
    destruct (line_213_range_neg beta freq Hf).
    repeat split; auto using post_process_ok, line_213_spec.
Qed.

Lemma post_process_nonpositive_freq_witness :
  (_post_process_fit_result demo_std_dev fit_zero_freq = Raise ZeroDivisionError)
  ∧ ∃ n : Q,
      _post_process_fit_result demo_std_dev fit_negative_freq
      = Ok (stored demo_std_dev fit_negative_freq n)
      ∧ n == spec_canonical (1#4) (-1)
      ∧ 1 / (2 * -1) < n ∧ n <= - (1 / (2 * -1)).
Proof.
  split.
  - apply (post_process_nonpositive_freq demo_std_dev fit_zero_freq (1#4) 0);
      reflexivity.
  - apply (post_process_nonpositive_freq demo_std_dev fit_negative_freq
             (1#4) (-1));
      reflexivity.
Defined.

(** C9: the post-processor writes [popt[2]] and nothing else, once.
    Whenever it returns, the returned fit result is the given one after a
    single update of [popt] at index 2, the beta entry (its value and the
    uncertainty it carries).  Every other entry of [popt] keeps its value
    and its uncertainty; the length of [popt], the parameter names, the
    covariance and the reduced chi-squared are those of the input.  It does
    return whenever [popt] has a beta entry and a non-zero frequency
    entry. *)
Theorem post_process_frame (std : FitData → Q) (fd : FitData) :
  (∀ r : FitData, _post_process_fit_result std fd = Ok r →
     (∃ v : FitVal, popt r = <[2%nat:=v]> (popt fd))
     ∧ (∀ i : nat, i ≠ 2%nat →
          popt r !! i = popt fd !! i
          ∧ nominal_value <$> popt r !! i = nominal_value <$> popt fd !! i
          ∧ std_dev <$> popt r !! i = std_dev <$> popt fd !! i)
     ∧ length (popt r) = length (popt fd)
     ∧ popt_keys r = popt_keys fd
     ∧ pcov r = pcov fd
     ∧ reduced_chisq r = reduced_chisq fd)
  ∧ (∀ beta freq : Q,
       nominal_value <$> popt fd !! 1%nat = Some freq →
       nominal_value <$> popt fd !! 2%nat = Some beta →
       ¬ freq == 0 → ∃ r, _post_process_fit_result std fd = Ok r).
Proof.
  split.
  - intros r Hr.
    destruct (post_process_inv std fd r Hr) as (be & fe & _ & _ & _ & ->).
    split; [by eexists|].
    split; [|cbn; by rewrite length_insert].
    intros i Hi. by rewrite (stored_lookup_other std fd _ i Hi).
  - intros beta freq H1 H2 Hf. eexists. by eapply post_process_ok.
Qed.

Lemma post_process_frame_witness :
  ∃ r : FitData,
    _post_process_fit_result demo_std_dev fit_two_periods = Ok r
    ∧ (∀ i : nat, i ≠ 2%nat → popt r !! i = popt fit_two_periods !! i)
    ∧ std_dev <$> popt r !! 1%nat = Some (1#128)
    ∧ pcov r = [[1]] ∧ reduced_chisq r = (1#2).
Proof.
  destruct (post_process_frame demo_std_dev fit_two_periods) as [Hframe Hret].
  destruct (Hret (1#8) (1#2)) as [r Hr];
    [reflexivity | reflexivity | discriminate |].
  exists r. destruct (Hframe r Hr) as (_ & Hi & _ & _ & Hc & Hq).
  split; [exact Hr|]. split; [intros i Hne; apply (Hi i Hne)|].
  split; [|split; [exact Hc | exact Hq]].
  destruct (Hi 1%nat) as (_ & _ & Hs); [discriminate|]. exact Hs.
Defined.

End PostProcessorErrors.

(** ** The quality evaluator *)

Section QualityEvaluator.

Variable is_error_not_significant : FitVal → bool.

Abbreviation evaluate := (_evaluate_quality is_error_not_significant).

Lemma evaluate_quality_unfold (fd : FitData) (b f : FitVal) :
  fitval fd "beta" = Ok b → fitval fd "freq" = Ok f →
  ¬ nominal_value f == 0 →
  evaluate fd
  = if Py.lt (reduced_chisq fd) 3
       && (Py.lt (Py.abs (nominal_value b)) (1 / nominal_value f / 2)
           && is_error_not_significant b)
    then Ok "good" else Ok "bad".
Proof.
  intros Hb Hf Hnz. unfold _evaluate_quality. rewrite Hb, Hf. cbn.
  rewrite div_ok by done. cbn.
  rewrite div_ok by (intros H; discriminate). cbn.
  by rewrite andb_true_r.
Qed.

Lemma evaluate_quality_zero (fd : FitData) (b f : FitVal) :
  fitval fd "beta" = Ok b → fitval fd "freq" = Ok f →
  nominal_value f == 0 → evaluate fd = Raise ZeroDivisionError.
Proof.
  intros Hb Hf Hz. unfold _evaluate_quality. rewrite Hb, Hf. cbn.
  by rewrite div_zero.
Qed.

Lemma criteria_reflect (fd : FitData) (b f : FitVal) :
  ¬ nominal_value f == 0 →
  Py.lt (reduced_chisq fd) 3
  && (Py.lt (Py.abs (nominal_value b)) (1 / nominal_value f / 2)
      && is_error_not_significant b) = true
  ↔ criteria_hold is_error_not_significant (reduced_chisq fd) b f.
Proof.
  intros Hnz. unfold criteria_hold.
  rewrite !andb_true_iff, !lt_spec. unfold Py.abs.
  rewrite (half_period _ Hnz). reflexivity.
Qed.

End QualityEvaluator.

Section QualityClaims.

(** The evaluator on any fit data.  With a non-zero fitted frequency the
    label is "good" exactly when the three criteria hold and "bad"
    otherwise; a fitted frequency of zero, which no post-processed fit
    result has, makes the division of line 229 raise. *)
Lemma evaluate_quality_any_fit (sig : FitVal → bool) (fd : FitData)
    (b f : FitVal) :
  fitval fd "beta" = Ok b → fitval fd "freq" = Ok f →
  (¬ nominal_value f == 0 →
     (_evaluate_quality sig fd = Ok "good"
      ↔ criteria_hold sig (reduced_chisq fd) b f)
     ∧ (_evaluate_quality sig fd = Ok "bad"
        ↔ ¬ criteria_hold sig (reduced_chisq fd) b f)
     ∧ (_evaluate_quality sig fd = Ok "good"
        ∨ _evaluate_quality sig fd = Ok "bad"))
  ∧ (nominal_value f == 0 → _evaluate_quality sig fd = Raise ZeroDivisionError).
Proof.
  intros Hb Hf. split; [|by eapply evaluate_quality_zero].
  intros Hnz. rewrite (evaluate_quality_unfold sig fd b f Hb Hf Hnz).
  rewrite <- (criteria_reflect sig fd b f Hnz).
  destruct (Py.lt (reduced_chisq fd) 3 && _); cbn.
  - repeat split; auto; try discriminate. intros H; by destruct H.
  - repeat split; auto; try discriminate.
Qed.

Lemma fitval_at (fd : FitData) (key : string) (i : nat) (v : FitVal) :
  index (popt_keys fd) key = Ok i → popt fd !! i = Some v →
  fitval fd key = Ok v.
Proof.
  intros Hi Hv. unfold fitval, Py.getitem. rewrite Hi. cbn. by rewrite Hv.
Qed.

(** The fitted values that the evaluator reads from a post-processed fit
    result whose keys put freq at index 1 and beta at index 2. *)
Lemma completed_fitvals (std : FitData → Q) (fd r : FitData) :
  index (popt_keys fd) "freq" = Ok 1%nat →
  index (popt_keys fd) "beta" = Ok 2%nat →
  _post_process_fit_result std fd = Ok r →
  ∃ (be fe : FitVal),
    popt fd !! 2%nat = Some be ∧ popt fd !! 1%nat = Some fe
    ∧ ¬ nominal_value fe == 0
    ∧ r = stored std fd (line_213 (nominal_value be) (nominal_value fe))
    ∧ fitval r "beta"
      = Ok (ufloat (line_213 (nominal_value be) (nominal_value fe)) (std fd))
    ∧ fitval r "freq" = Ok fe.
Proof.
  intros Hif Hib Hr.
  destruct (post_process_inv std fd r Hr) as (be & fe & H2 & H1 & Hnz & ->).
  exists be, fe. do 4 (split; [done|]).
  pose proof (lookup_lt_Some _ _ _ H2) as Hlen. split.
  - apply (fitval_at _ "beta" 2); [done | by apply stored_lookup_beta].
  - apply (fitval_at _ "freq" 1); [done|].
    by rewrite stored_lookup_other.
Qed.

(** C4: for every completed fit result, that is, one the post-processor
    has returned (with freq at index 1 and beta at index 2 of the fitted
    parameters), the quality evaluator returns "good" if and only if the
    reduced chi-squared is below 3, the absolute value of the fitted
    beta's nominal value is below [1/(2 freq)], and the uncertainty
    comparison reports the beta uncertainty as not significant; in every
    other case it returns "bad"; it returns nothing else. *)
Theorem evaluate_quality_completed_fit (std : FitData → Q)
    (sig : FitVal → bool) (fd r : FitData) :
  index (popt_keys fd) "freq" = Ok 1%nat →
  index (popt_keys fd) "beta" = Ok 2%nat →
  _post_process_fit_result std fd = Ok r →
  ∃ b f : FitVal,
    fitval r "beta" = Ok b ∧ fitval r "freq" = Ok f
    ∧ (_evaluate_quality sig r = Ok "good"
       ↔ reduced_chisq r < 3
         ∧ Qabs (nominal_value b) < 1 / (2 * nominal_value f)
         ∧ sig b = true)
    ∧ (_evaluate_quality sig r = Ok "bad"
       ↔ ¬ (reduced_chisq r < 3
            ∧ Qabs (nominal_value b) < 1 / (2 * nominal_value f)
            ∧ sig b = true))
    ∧ (_evaluate_quality sig r = Ok "good"
       ∨ _evaluate_quality sig r = Ok "bad").
Proof.
  intros Hif Hib Hr.
  destruct (completed_fitvals std fd r Hif Hib Hr)
    as (be & fe & _ & _ & Hnz & _ & Hb & Hf).
  eexists _, fe. split; [exact Hb|]. split; [exact Hf|].
  by apply (evaluate_quality_any_fit sig r _ fe Hb Hf).
Qed.

Lemma evaluate_quality_completed_fit_witness :
  ∃ (r : FitData) (b f : FitVal),
    _post_process_fit_result demo_std_dev fit_two_periods = Ok r
    ∧ fitval r "beta" = Ok b ∧ fitval r "freq" = Ok f
    ∧ (_evaluate_quality (fun v => Py.lt (std_dev v) (1#32)) r = Ok "good"
       ↔ reduced_chisq r < 3
         ∧ Qabs (nominal_value b) < 1 / (2 * nominal_value f)
         ∧ Py.lt (std_dev b) (1#32) = true)
    ∧ _evaluate_quality (fun v => Py.lt (std_dev v) (1#32)) r = Ok "good".
Proof.
  eexists. 
  destruct (evaluate_quality_completed_fit demo_std_dev
              (fun v => Py.lt (std_dev v) (1#32)) fit_two_periods
              (stored demo_std_dev fit_two_periods (line_213 (1#8) (1#2))))
    as (b & f & Hb & Hf & Hgood & _ & _);
    [reflexivity | reflexivity | reflexivity |].
  exists b, f. split; [reflexivity|]. split; [exact Hb|]. split; [exact Hf|].
  split; [exact Hgood|]. vm_compute. reflexivity.
Defined.

End QualityClaims.

(** ** The guess generator *)

Section Containers.

Lemma lookup_set_if_empty_eq {A} (k : string) (v : A) (d : gmap string A) :
  set_if_empty k v d !! k = Some (default v (d !! k)).
Proof.
  unfold set_if_empty. destruct (d !! k) eqn:E; cbn; [done|].
  by rewrite lookup_insert_eq.
Qed.

Lemma lookup_set_if_empty_ne {A} (k k' : string) (v : A) (d : gmap string A) :
  k ≠ k' → set_if_empty k v d !! k' = d !! k'.
Proof.
  intros Hne. unfold set_if_empty. destruct (d !! k); [done|].
  by rewrite lookup_insert_ne.
Qed.

Lemma max_ok (xs : list Q) : xs ≠ [] → Py.max xs = Ok (list_hi xs).
Proof. by destruct xs. Qed.

Lemma min_ok (xs : list Q) : xs ≠ [] → Py.min xs = Ok (list_lo xs).
Proof. by destruct xs. Qed.

Lemma ptp_ok (xs : list Q) : xs ≠ [] → Np.ptp xs = Ok (list_hi xs - list_lo xs).
Proof. intros H. unfold Np.ptp. by rewrite max_ok, min_ok. Qed.

Lemma max2_upper (a b : Q) : a <= Py.max2 a b ∧ b <= Py.max2 a b.
Proof.
  unfold Py.max2. destruct (Py.lt a b) eqn:E.
  - apply lt_spec in E. lra.
  - assert (¬ a < b) by (rewrite <- lt_spec; congruence). lra.
Qed.

Lemma max2_choice (a b : Q) : Py.max2 a b = a ∨ Py.max2 a b = b.
Proof. unfold Py.max2. destruct (Py.lt a b); auto. Qed.

Lemma min2_lower (a b : Q) : Py.min2 a b <= a ∧ Py.min2 a b <= b.
Proof.
  unfold Py.min2. destruct (Py.lt b a) eqn:E.
  - apply lt_spec in E. lra.
  - assert (¬ b < a) by (rewrite <- lt_spec; congruence). lra.
Qed.

Lemma min2_choice (a b : Q) : Py.min2 a b = a ∨ Py.min2 a b = b.
Proof. unfold Py.min2. destruct (Py.lt b a); auto. Qed.

Lemma fold_max2_spec (rest : list Q) (a : Q) :
  (a <= fold_left Py.max2 rest a ∧ ∀ v, v ∈ rest → v <= fold_left Py.max2 rest a)
  ∧ fold_left Py.max2 rest a ∈ a :: rest.
Proof.
  revert a. induction rest as [|b rest IH]; intros a; cbn.
  - split; [split; [lra|] | left]. intros v Hv. inversion Hv.
  - destruct (IH (Py.max2 a b)) as [[H1 H2] H3].
    destruct (max2_upper a b) as [Ha Hb].
    split; [split|].
    + lra.
    + intros v Hv. apply elem_of_cons in Hv as [-> | Hv]; [lra | auto].
    + apply elem_of_cons in H3 as [H3 | H3].
      * rewrite H3. destruct (max2_choice a b) as [-> | ->];
          [left | right; left].
      * right; by right.
Qed.

Lemma fold_min2_spec (rest : list Q) (a : Q) :
  (fold_left Py.min2 rest a <= a ∧ ∀ v, v ∈ rest → fold_left Py.min2 rest a <= v)
  ∧ fold_left Py.min2 rest a ∈ a :: rest.
Proof.
  revert a. induction rest as [|b rest IH]; intros a; cbn.
  - split; [split; [lra|] | left]. intros v Hv. inversion Hv.
  - destruct (IH (Py.min2 a b)) as [[H1 H2] H3].
    destruct (min2_lower a b) as [Ha Hb].
    split; [split|].
    + lra.
    + intros v Hv. apply elem_of_cons in Hv as [-> | Hv]; [lra | auto].
    + apply elem_of_cons in H3 as [H3 | H3].
      * rewrite H3. destruct (min2_choice a b) as [-> | ->];
          [left | right; left].
      * right; by right.
Qed.

(** [list_hi] is a maximum of the sequence and [list_lo] a minimum. *)
Lemma list_hi_spec (xs : list Q) :
  xs ≠ [] → list_hi xs ∈ xs ∧ ∀ v, v ∈ xs → v <= list_hi xs.
Proof.
  destruct xs as [|a rest]; [done|]. intros _. unfold list_hi. cbn.
  destruct (fold_max2_spec rest a) as [[H1 H2] H3]. split; [done|].
  intros v Hv. apply elem_of_cons in Hv as [-> | Hv]; auto.
Qed.

Lemma list_lo_spec (xs : list Q) :
  xs ≠ [] → list_lo xs ∈ xs ∧ ∀ v, v ∈ xs → list_lo xs <= v.
Proof.
  destruct xs as [|a rest]; [done|]. intros _. unfold list_lo. cbn.
  destruct (fold_min2_spec rest a) as [[H1 H2] H3]. split; [done|].
  intros v Hv. apply elem_of_cons in Hv as [-> | Hv]; auto.
Qed.

(** Indexing the result of a nested loop that appends one item per pair. *)
Lemma flat_map_map_lookup {A B C} (g : A → B → C) (fs : list A) (l : list B)
    (i j : nat) (a : A) (b : B) :
  fs !! i = Some a → l !! j = Some b →
  flat_map (fun a => map (g a) l) fs !! (i * length l + j)%nat = Some (g a b).
Proof.
  revert i. induction fs as [|f fs IH]; intros i Hi Hj; [done|]. cbn.
  destruct i as [|i]; cbn in *.
  - injection Hi as ->. rewrite lookup_app_l.
    + change (map (g a) l) with (g a <$> l). by rewrite list_lookup_fmap, Hj.
    + rewrite length_map. by eapply lookup_lt_Some.
  - rewrite lookup_app_r by (rewrite length_map; lia).
    rewrite length_map.
    replace (length l + i * length l + j - length l)%nat
      with (i * length l + j)%nat by lia.
    by apply IH.
Qed.

Lemma flat_map_map_length {A B C} (g : A → B → C) (fs : list A) (l : list B) :
  length (flat_map (fun a => map (g a) l) fs) = (length fs * length l)%nat.
Proof.
  induction fs as [|f fs IH]; [done|]. cbn.
  rewrite length_app, length_map, IH. lia.
Qed.

Lemma flat_map_map_elem {A B C} (g : A → B → C) (fs : list A) (l : list B) (c : C) :
  c ∈ flat_map (fun a => map (g a) l) fs → ∃ a b, a ∈ fs ∧ b ∈ l ∧ c = g a b.
Proof.
  rewrite list_elem_of_In, in_flat_map. intros (a & Ha & Hc).
  apply in_map_iff in Hc as (b & <- & Hb).
  exists a, b. by rewrite !list_elem_of_In.
Qed.

End Containers.

Lemma bind_ok_eq {A B} (a : A) (f : A → result B) : (Ok a ≫= f) = f a.
Proof. reflexivity. Qed.

Ltac bind_ok := rewrite bind_ok_eq; cbv beta zeta.

Lemma Ok_inj {A} (a b : A) : Ok a = Ok b → a = b.
Proof. congruence. Qed.

Section GuessGenerator.

Variable frequency : list Q → list Q → Q.
Variable self : Analysis.
Variable user_opt : FitOptions.
Variables s0 s1 s2 : CurveData.
Variables r0 r1 r2 : Z.

Hypothesis Hs0 : _data self "series-0" = Ok s0.
Hypothesis Hs1 : _data self "series-1" = Ok s1.
Hypothesis Hs2 : _data self "series-2" = Ok s2.
Hypothesis Hr0 : fixed_parameters self !! "reps0" = Some r0.
Hypothesis Hr1 : fixed_parameters self !! "reps1" = Some r1.
Hypothesis Hr2 : fixed_parameters self !! "reps2" = Some r2.
Hypothesis Hx : x s0 ≠ [].
Hypothesis Hy : y (_data_all self) ≠ [].

(** The series used for the frequency estimate and its repetition count. *)
Let curve_data : CurveData := pick r0 r1 r2 s0 s1 s2.
Let reps : Z := pick r0 r1 r2 r0 r1 r2.

Hypothesis Hreps : reps ≠ 0%Z.

Let freqs_guess : Q :=
  frequency (x curve_data) (y curve_data) / inject_Z reps.

(** The seeded frequency guess: the user's, or else the estimate. *)
Let freq : Q := default freqs_guess (p0 user_opt !! "freq").

Hypothesis Hfreq : ¬ freq == 0.

Let min_beta : Q := list_lo (x s0).
Let max_beta : Q := list_hi (x s0).
Let ys : list Q := y (_data_all self).
Let ptp_y : Q := list_hi ys - list_lo ys.
Let avg_x : Q := (max_beta + min_beta) / 2.
Let span_x : Q := max_beta - min_beta.
Let beta_bound : Q := Py.max2 (5 / freq) span_x.
Let base_guess : Q := (list_hi ys - list_lo ys) / 2.

Let p0_1 : gmap string Q := set_if_empty "freq" freqs_guess (p0 user_opt).
Let p0_2 : gmap string Q :=
  set_if_empty "base" (or_else (p0_1 !! "amp") base_guess) p0_1.
Let bounds_1 : gmap string (endpoint * endpoint) :=
  set_if_empty "base" (Finite (list_lo ys - ptp_y), Finite (list_hi ys + ptp_y))
    (set_if_empty "beta" (Finite (avg_x - beta_bound), Finite (avg_x + beta_bound))
      (set_if_empty "freq" (Finite 0, PosInf)
        (set_if_empty "amp" (Finite (-2 * ptp_y), Finite 0) (bounds user_opt)))).

Lemma select_ok :
  max_by_key (fun l : string * string => Py.lookup_key (fixed_parameters self) l.2)
    ("series-0", "reps0") [("series-1", "reps1"); ("series-2", "reps2")]
  = Ok (pick r0 r1 r2 ("series-0", "reps0") ("series-1", "reps1")
          ("series-2", "reps2")).
Proof.
  unfold max_by_key, max_scan, Py.lookup_key, pick. cbn.
  rewrite Hr0. cbn. rewrite Hr1. cbn.
  destruct (r0 <? r1)%Z; rewrite Hr2; cbn;
    by match goal with |- context [(?a <? ?b)%Z] => destruct (a <? b)%Z end.
Qed.

Lemma selected_data :
  _data self (pick r0 r1 r2 ("series-0", "reps0") ("series-1", "reps1")
                ("series-2", "reps2")).1
  = Ok curve_data.
Proof.
  unfold curve_data, pick. by destruct (r0 <? r1)%Z, (r1 <? r2)%Z, (r0 <? r2)%Z.
Qed.

Lemma selected_reps :
  Py.lookup_key (fixed_parameters self)
    (pick r0 r1 r2 ("series-0", "reps0") ("series-1", "reps1")
       ("series-2", "reps2")).2
  = Ok reps.
Proof.
  unfold reps, pick, Py.lookup_key.
  destruct (r0 <? r1)%Z, (r1 <? r2)%Z, (r0 <? r2)%Z; cbn;
    by rewrite ?Hr0, ?Hr1, ?Hr2.
Qed.

Lemma reps_largest : (r0 <= reps)%Z ∧ (r1 <= reps)%Z ∧ (r2 <= reps)%Z.
Proof.
  unfold reps, pick.
  destruct (Z.ltb_spec r0 r1), (Z.ltb_spec r1 r2), (Z.ltb_spec r0 r2); lia.
Qed.

Lemma seeded_freq : p0_1 !! "freq" = Some freq.
Proof. unfold p0_1, freq. apply lookup_set_if_empty_eq. Qed.

Lemma generate_ok :
  _generate_fit_guesses frequency self user_opt
  = Ok (flat_map (fun amp_factor =>
                    map (candidate p0_2 bounds_1 ptp_y amp_factor)
                        (Np.linspace min_beta max_beta 20))
                 amp_factors).
Proof.
  unfold _generate_fit_guesses. rewrite Hs0. bind_ok.
  rewrite !(min_ok (x s0)), !(max_ok (x s0)) by done. repeat bind_ok.
  rewrite select_ok. bind_ok. rewrite selected_data. bind_ok.
  rewrite selected_reps. bind_ok.
  rewrite div_ok
    by (change 0 with (inject_Z 0); rewrite inject_Z_injective; exact Hreps).
  repeat bind_ok. rewrite div_ok by (intros H; discriminate). bind_ok.
  fold curve_data reps freqs_guess p0_1. rewrite seeded_freq. bind_ok.
  rewrite div_ok by exact Hfreq. bind_ok.
  fold ys. rewrite (ptp_ok ys), !(min_ok ys), !(max_ok ys) by exact Hy.
  repeat bind_ok.
  rewrite div_ok by (intros H; discriminate). bind_ok.
  reflexivity.
Qed.

Lemma generate_length (opts : list FitOptions) :
  _generate_fit_guesses frequency self user_opt = Ok opts → length opts = 60%nat.
Proof.
  rewrite generate_ok. intros <-%Ok_inj.
  exact (flat_map_map_length (candidate p0_2 bounds_1 ptp_y) amp_factors
           (Np.linspace min_beta max_beta 20)).
Qed.

Lemma generate_elem (opts : list FitOptions) (o : FitOptions) :
  _generate_fit_guesses frequency self user_opt = Ok opts → o ∈ opts →
  ∃ af bg, af ∈ amp_factors ∧ bg ∈ Np.linspace min_beta max_beta 20
           ∧ o = candidate p0_2 bounds_1 ptp_y af bg.
Proof.
  rewrite generate_ok. intros <-%Ok_inj Ho.
  by apply (flat_map_map_elem (candidate p0_2 bounds_1 ptp_y)) in Ho.
Qed.

Lemma seeded_p0_other (k : string) :
  k ≠ "base" → k ≠ "freq" → p0_2 !! k = p0 user_opt !! k.
Proof.
  intros Hb Hf. unfold p0_2, p0_1.
  by rewrite !lookup_set_if_empty_ne.
Qed.

Lemma candidate_amp (af bg : Q) :
  p0 (candidate p0_2 bounds_1 ptp_y af bg) !! "amp"
  = Some (default (ptp_y * af) (p0 user_opt !! "amp")).
Proof.
  cbn. rewrite lookup_set_if_empty_ne by done.
  by rewrite lookup_set_if_empty_eq, seeded_p0_other.
Qed.

Lemma candidate_beta (af bg : Q) :
  p0 (candidate p0_2 bounds_1 ptp_y af bg) !! "beta"
  = Some (default bg (p0 user_opt !! "beta")).
Proof.
  cbn. rewrite lookup_set_if_empty_eq.
  by rewrite lookup_set_if_empty_ne, seeded_p0_other.
Qed.

Lemma candidate_freq (af bg : Q) :
  p0 (candidate p0_2 bounds_1 ptp_y af bg) !! "freq" = Some freq.
Proof.
  cbn. unfold p0_2. rewrite !lookup_set_if_empty_ne by done. apply seeded_freq.
Qed.

Lemma candidate_base (af bg : Q) :
  p0 (candidate p0_2 bounds_1 ptp_y af bg) !! "base"
  = Some (default (or_else (p0 user_opt !! "amp") base_guess)
            (p0 user_opt !! "base")).
Proof.
  cbn. rewrite !lookup_set_if_empty_ne by done.
  unfold p0_2. rewrite lookup_set_if_empty_eq. unfold p0_1.
  by rewrite !lookup_set_if_empty_ne.
Qed.

Lemma linspace_lookup (a b : Q) (j : nat) :
  (j < 20)%nat →
  ∃ v, Np.linspace a b 20 !! j = Some v
       ∧ v == a + inject_Z (Z.of_nat j) * ((b - a) / 19).
Proof.
  intros Hj.
  do 20 (destruct j as [|j];
         [eexists; split; [reflexivity | cbn; field] |]).
  lia.
Qed.

Lemma generate_lookup (opts : list FitOptions) (i j : nat) (af bg : Q) :
  _generate_fit_guesses frequency self user_opt = Ok opts →
  amp_factors !! i = Some af → Np.linspace min_beta max_beta 20 !! j = Some bg →
  opts !! (i * 20 + j)%nat = Some (candidate p0_2 bounds_1 ptp_y af bg).
Proof.
  rewrite generate_ok. intros <-%Ok_inj Hi Hj.
  exact (flat_map_map_lookup (candidate p0_2 bounds_1 ptp_y) amp_factors
           (Np.linspace min_beta max_beta 20) i j af bg Hi Hj).
Qed.

(** C5: the guess generator returns 60 candidates.  When the user gave no
    guess for amp and beta, the candidate at position [20 i + j] has the
    amplitude [ptp(y) * f_i], [f_i] the i-th of the factors -1, -0.5,
    -0.25, and the beta [b_j], the j-th of the 20 evenly spaced values
    [min x + j (max x - min x)/19] between the smallest and the largest
    scanned x.  A guess for amp or beta given by the user is the value of
    that parameter in every candidate. *)
Theorem generate_fan_out :
  ∃ opts : list FitOptions,
    _generate_fit_guesses frequency self user_opt = Ok opts
    ∧ length opts = 60%nat
    ∧ (p0 user_opt !! "amp" = None → p0 user_opt !! "beta" = None →
       ∀ i j : nat, (i < 3)%nat → (j < 20)%nat →
       ∃ (o : FitOptions) (af bg : Q),
         opts !! (i * 20 + j)%nat = Some o
         ∧ [-1; -(1#2); -(1#4)] !! i = Some af
         ∧ bg == list_lo (x s0)
                 + inject_Z (Z.of_nat j) * ((list_hi (x s0) - list_lo (x s0)) / 19)
         ∧ p0 o !! "amp" = Some ((list_hi ys - list_lo ys) * af)
         ∧ p0 o !! "beta" = Some bg)
    ∧ (∀ a : Q, p0 user_opt !! "amp" = Some a →
       ∀ o, o ∈ opts → p0 o !! "amp" = Some a)
    ∧ (∀ b : Q, p0 user_opt !! "beta" = Some b →
       ∀ o, o ∈ opts → p0 o !! "beta" = Some b).
Proof.
  eexists. split; [apply generate_ok|].
  split; [apply generate_length, generate_ok|]. split; [|split].
  - intros Ha Hb i j Hi Hj.
    destruct (linspace_lookup min_beta max_beta j Hj) as (bg & Hbg & Ebg).
    assert (∃ af, amp_factors !! i = Some af) as [af Haf].
    { do 3 (destruct i as [|i]; [eexists; reflexivity|]). lia. }
    exists (candidate p0_2 bounds_1 ptp_y af bg), af, bg.
    split; [by apply generate_lookup; [apply generate_ok|..]|].
    split; [exact Haf|]. split; [exact Ebg|].
    by rewrite candidate_amp, candidate_beta, Ha, Hb.
  - intros a Ha o Ho.
    destruct (generate_elem _ o generate_ok Ho) as (af & bg & _ & _ & ->).
    by rewrite candidate_amp, Ha.
  - intros b Hb o Ho.
    destruct (generate_elem _ o generate_ok Ho) as (af & bg & _ & _ & ->).
    by rewrite candidate_beta, Hb.
Qed.

(** C6: the estimate is taken on a series whose repetition count is the
    largest of the three, and divided by that count.  Without a freq guess
    from the user, every candidate carries this value as its freq guess;
    with one, every candidate carries the user's value. *)
Theorem generate_freq_seed :
  ∃ opts : list FitOptions,
    _generate_fit_guesses frequency self user_opt = Ok opts
    ∧ length opts = 60%nat
    ∧ (curve_data, reps) ∈ [(s0, r0); (s1, r1); (s2, r2)]
    ∧ (r0 <= reps)%Z ∧ (r1 <= reps)%Z ∧ (r2 <= reps)%Z
    ∧ (p0 user_opt !! "freq" = None →
       ∀ o, o ∈ opts →
       p0 o !! "freq"
       = Some (frequency (x curve_data) (y curve_data) / inject_Z reps))
    ∧ (∀ f : Q, p0 user_opt !! "freq" = Some f →
       ∀ o, o ∈ opts → p0 o !! "freq" = Some f).
Proof.
  eexists. split; [apply generate_ok|].
  split; [apply generate_length, generate_ok|].
  split; [|split; [apply reps_largest|split; [apply reps_largest|split; [apply reps_largest|split]]]].
  - unfold curve_data, reps, pick.
    destruct (r0 <? r1)%Z, (r1 <? r2)%Z, (r0 <? r2)%Z;
      repeat first [by left | right].
  - intros Hn o Ho.
    destruct (generate_elem _ o generate_ok Ho) as (af & bg & _ & _ & ->).
    rewrite candidate_freq. unfold freq. by rewrite Hn.
  - intros f Hf o Ho.
    destruct (generate_elem _ o generate_ok Ho) as (af & bg & _ & _ & ->).
    rewrite candidate_freq. unfold freq. by rewrite Hf.
Qed.

(** C7: a parameter for which the user gave no bounds gets, in every
    candidate: amp, [(-2 ptp(y), 0)]; freq, [(0, inf)]; base,
    [(min y - ptp(y), max y + ptp(y))]; beta, [(m - w, m + w)] with [m] the
    midpoint of the scanned x values and [w] the larger of [5 / freq_guess]
    and the span of x, [freq_guess] being the freq guess of the candidate. *)
Theorem generate_bounds :
  ∃ opts : list FitOptions,
    _generate_fit_guesses frequency self user_opt = Ok opts
    ∧ length opts = 60%nat
    ∧ ∀ o, o ∈ opts →
      ∃ freq_guess w : Q,
        p0 o !! "freq" = Some freq_guess
        ∧ w = Py.max2 (5 / freq_guess) (list_hi (x s0) - list_lo (x s0))
        ∧ 5 / freq_guess <= w ∧ list_hi (x s0) - list_lo (x s0) <= w
        ∧ (w = 5 / freq_guess ∨ w = list_hi (x s0) - list_lo (x s0))
        ∧ (bounds user_opt !! "amp" = None →
           bounds o !! "amp"
           = Some (Finite (-2 * (list_hi ys - list_lo ys)), Finite 0))
        ∧ (bounds user_opt !! "freq" = None →
           bounds o !! "freq" = Some (Finite 0, PosInf))
        ∧ (bounds user_opt !! "base" = None →
           bounds o !! "base"
           = Some (Finite (list_lo ys - (list_hi ys - list_lo ys)),
                   Finite (list_hi ys + (list_hi ys - list_lo ys))))
        ∧ (bounds user_opt !! "beta" = None →
           bounds o !! "beta"
           = Some (Finite ((list_hi (x s0) + list_lo (x s0)) / 2 - w),
                   Finite ((list_hi (x s0) + list_lo (x s0)) / 2 + w))).
Proof.
  eexists. split; [apply generate_ok|].
  split; [apply generate_length, generate_ok|].
  intros o Ho.
  destruct (generate_elem _ o generate_ok Ho) as (af & bg & _ & _ & ->).
  exists freq, beta_bound. split; [apply candidate_freq|].
  split; [reflexivity|]. split; [apply max2_upper|]. split; [apply max2_upper|].
  split; [apply max2_choice|]. cbn. unfold bounds_1.
  repeat split; intros Hn.
  - rewrite !lookup_set_if_empty_ne by done.
    by rewrite lookup_set_if_empty_eq, Hn.
  - rewrite !lookup_set_if_empty_ne by done.
    by rewrite lookup_set_if_empty_eq, lookup_set_if_empty_ne, Hn.
  - by rewrite lookup_set_if_empty_eq, !lookup_set_if_empty_ne, Hn.
  - rewrite lookup_set_if_empty_ne by done.
    by rewrite lookup_set_if_empty_eq, !lookup_set_if_empty_ne, Hn.
Qed.

(** C10: when the user gave no base guess, the base guess of every
    candidate is the user's amp guess if there is one and it is not zero;
    it is half the range of y, [(max y - min y) / 2], when the amp guess is
    unset or zero. *)
Theorem generate_base_seed :
  p0 user_opt !! "base" = None →
  ∃ opts : list FitOptions,
    _generate_fit_guesses frequency self user_opt = Ok opts
    ∧ length opts = 60%nat
    ∧ (∀ a : Q, p0 user_opt !! "amp" = Some a → ¬ a == 0 →
       ∀ o, o ∈ opts → p0 o !! "base" = Some a)
    ∧ ((p0 user_opt !! "amp" = None
        ∨ ∃ a : Q, p0 user_opt !! "amp" = Some a ∧ a == 0) →
       ∀ o, o ∈ opts → p0 o !! "base" = Some ((list_hi ys - list_lo ys) / 2)).
Proof.
  intros Hbase. eexists. split; [apply generate_ok|].
  split; [apply generate_length, generate_ok|]. split.
  - intros a Ha Hnz o Ho.
    destruct (generate_elem _ o generate_ok Ho) as (af & bg & _ & _ & ->).
    rewrite candidate_base, Hbase, Ha. cbn. by rewrite is_zero_false.
  - intros Hamp o Ho.
    destruct (generate_elem _ o generate_ok Ho) as (af & bg & _ & _ & ->).
    rewrite candidate_base, Hbase.
    destruct Hamp as [-> | (a & -> & Hz)]; cbn; [done|].
    by rewrite is_zero_true.
Qed.

(** *** Further properties of the candidates *)

Lemma set_if_empty_keeps {A} (k k' : string) (v u : A) (d : gmap string A) :
  d !! k' = Some u → set_if_empty k v d !! k' = Some u.
Proof.
  intros Hd. destruct (decide (k = k')) as [-> | Hne].
  - by rewrite lookup_set_if_empty_eq, Hd.
  - by rewrite lookup_set_if_empty_ne.
Qed.

Lemma data_range_x : list_lo (x s0) <= list_hi (x s0).
Proof.
  destruct (list_hi_spec (x s0) Hx) as [_ Hup].
  destruct (list_lo_spec (x s0) Hx) as [Hin _]. auto.
Qed.

Lemma data_range_y : list_lo ys <= list_hi ys.
Proof.
  destruct (list_hi_spec ys Hy) as [_ Hup].
  destruct (list_lo_spec ys Hy) as [Hin _]. auto.
Qed.

Lemma linspace_elem_range (a b v : Q) :
  a <= b → v ∈ Np.linspace a b 20 → a <= v ∧ v <= b.
Proof.
  intros Hab Hv. apply list_elem_of_lookup in Hv as [j Hj].
  assert (Hlt : (j < 20)%nat) by (by apply lookup_lt_Some in Hj).
  destruct (linspace_lookup a b j Hlt) as (v' & Hj' & Hv').
  assert (v = v') by congruence. subst v'.
  set (t := (b - a) / 19) in *.
  assert (Ht : 0 <= t) by (apply Qle_shift_div_l; [reflexivity | lra]).
  assert (Et : b - a == 19 * t) by (unfold t; field).
  assert (Hj0 : 0 <= inject_Z (Z.of_nat j))
    by (change 0 with (inject_Z 0); rewrite <- Zle_Qle; lia).
  assert (Hj19 : inject_Z (Z.of_nat j) <= 19)
    by (change 19 with (inject_Z 19); rewrite <- Zle_Qle; lia).
  assert (H1 : 0 <= inject_Z (Z.of_nat j) * t) by (by apply Qmult_le_0_compat).
  assert (H2 : 0 <= (19 - inject_Z (Z.of_nat j)) * t)
    by (apply Qmult_le_0_compat; lra).
  split; lra.
Qed.

(** X6: nothing the user supplied is overwritten.  For every parameter
    name, an initial guess or a pair of bounds present in the user's
    options is found unchanged in every candidate. *)
Theorem generate_keeps_user_values :
  ∃ opts : list FitOptions,
    _generate_fit_guesses frequency self user_opt = Ok opts
    ∧ ∀ o, o ∈ opts →
        (∀ (k : string) (v : Q),
           p0 user_opt !! k = Some v → p0 o !! k = Some v)
        ∧ (∀ (k : string) (b : endpoint * endpoint),
             bounds user_opt !! k = Some b → bounds o !! k = Some b).
Proof.
  eexists. split; [apply generate_ok|]. intros o Ho.
  destruct (generate_elem _ o generate_ok Ho) as (af & bg & _ & _ & ->).
  split; intros k v Hk; cbn.
  - unfold p0_2, p0_1. by do 4 apply set_if_empty_keeps.
  - unfold bounds_1. by do 4 apply set_if_empty_keeps.
Qed.

(** X7: every candidate is complete.  Each candidate has an initial guess
    and a pair of bounds for each of amp, freq, beta and base. *)
Theorem generate_complete :
  ∃ opts : list FitOptions,
    _generate_fit_guesses frequency self user_opt = Ok opts
    ∧ ∀ o (k : string), o ∈ opts → k ∈ ["amp"; "freq"; "beta"; "base"] →
        is_Some (p0 o !! k) ∧ is_Some (bounds o !! k).
Proof.
  eexists. split; [apply generate_ok|]. intros o k Ho Hk.
  destruct (generate_elem _ o generate_ok Ho) as (af & bg & _ & _ & ->).
  assert (Hb : ∀ k', is_Some (bounds_1 !! k') →
                is_Some (bounds (candidate p0_2 bounds_1 ptp_y af bg) !! k'))
    by done.
  repeat (apply elem_of_cons in Hk as [-> | Hk]);
    [| | | | by apply elem_of_nil in Hk].
  - split; [by rewrite candidate_amp|]. apply Hb. unfold bounds_1.
    rewrite !lookup_set_if_empty_ne by done.
    by rewrite lookup_set_if_empty_eq.
  - split; [by rewrite candidate_freq|]. apply Hb. unfold bounds_1.
    rewrite !lookup_set_if_empty_ne by done.
    by rewrite lookup_set_if_empty_eq.
  - split; [by rewrite candidate_beta|]. apply Hb. unfold bounds_1.
    rewrite lookup_set_if_empty_ne by done.
    by rewrite lookup_set_if_empty_eq.
  - split; [by rewrite candidate_base|]. apply Hb. unfold bounds_1.
    by rewrite lookup_set_if_empty_eq.
Qed.

(** X8: the candidates differ in amp and beta only.  Any two candidates
    have the same bounds and the same initial guess for every parameter
    other than amp and beta; and a parameter other than amp, freq, beta and
    base has in every candidate exactly what the user's options hold for
    it. *)
Theorem generate_varies_amp_beta_only :
  ∃ opts : list FitOptions,
    _generate_fit_guesses frequency self user_opt = Ok opts
    ∧ (∀ o1 o2, o1 ∈ opts → o2 ∈ opts →
         bounds o1 = bounds o2
         ∧ ∀ k : string, k ≠ "amp" → k ≠ "beta" → p0 o1 !! k = p0 o2 !! k)
    ∧ (∀ o (k : string), o ∈ opts →
         k ∉ ["amp"; "freq"; "beta"; "base"] →
         p0 o !! k = p0 user_opt !! k ∧ bounds o !! k = bounds user_opt !! k).
Proof.
  eexists. split; [apply generate_ok|]. split.
  - intros o1 o2 Ho1 Ho2.
    destruct (generate_elem _ o1 generate_ok Ho1) as (a1 & b1 & _ & _ & ->).
    destruct (generate_elem _ o2 generate_ok Ho2) as (a2 & b2 & _ & _ & ->).
    split; [done|]. intros k Ha Hb. cbn.
    by rewrite !(lookup_set_if_empty_ne _ k).
  - intros o k Ho Hk.
    destruct (generate_elem _ o generate_ok Ho) as (af & bg & _ & _ & ->).
    assert (k ≠ "amp" ∧ k ≠ "freq" ∧ k ≠ "beta" ∧ k ≠ "base") as (? & ? & ? & ?).
    { repeat split; intros ->; apply Hk;
        repeat first [apply list_elem_of_here | apply list_elem_of_further]. }
    cbn. unfold p0_2, p0_1, bounds_1.
    by rewrite !(lookup_set_if_empty_ne _ k).
Qed.

(** X9: the default amplitude guesses respect the default amplitude
    bounds.  When the user gave neither a guess nor bounds for amp, every
    candidate's amp guess is at most 0 and at least the lower amp bound
    [-2 ptp(y)]. *)
Theorem generate_amp_within_bounds :
  p0 user_opt !! "amp" = None → bounds user_opt !! "amp" = None →
  ∃ opts : list FitOptions,
    _generate_fit_guesses frequency self user_opt = Ok opts
    ∧ ∀ o, o ∈ opts →
        ∃ a lo : Q,
          p0 o !! "amp" = Some a
          ∧ bounds o !! "amp" = Some (Finite lo, Finite 0)
          ∧ lo <= a ∧ a <= 0.
Proof.
  intros Hp Hb. eexists. split; [apply generate_ok|]. intros o Ho.
  destruct (generate_elem _ o generate_ok Ho) as (af & bg & Haf & _ & ->).
  exists (ptp_y * af), (-2 * ptp_y).
  split; [by rewrite candidate_amp, Hp|]. split.
  { cbn. unfold bounds_1. rewrite !lookup_set_if_empty_ne by done.
    by rewrite lookup_set_if_empty_eq, Hb. }
  pose proof data_range_y as Hy'. unfold ptp_y.
  unfold amp_factors in Haf.
  repeat (apply elem_of_cons in Haf as [-> | Haf]);
    [| | | by apply elem_of_nil in Haf]; split; lra.
Qed.

(** X10: the default beta guesses lie in the scanned range and respect the
    default beta bounds.  When the user gave neither a guess nor bounds for
    beta, every candidate's beta guess is between the smallest and the
    largest x of series-0, and between the two beta bounds. *)
Theorem generate_beta_within_bounds :
  p0 user_opt !! "beta" = None → bounds user_opt !! "beta" = None →
  ∃ opts : list FitOptions,
    _generate_fit_guesses frequency self user_opt = Ok opts
    ∧ ∀ o, o ∈ opts →
        ∃ b lo hi : Q,
          p0 o !! "beta" = Some b
          ∧ bounds o !! "beta" = Some (Finite lo, Finite hi)
          ∧ list_lo (x s0) <= b ∧ b <= list_hi (x s0)
          ∧ lo <= b ∧ b <= hi.
Proof.
  intros Hp Hb. eexists. split; [apply generate_ok|]. intros o Ho.
  destruct (generate_elem _ o generate_ok Ho) as (af & bg & _ & Hbg & ->).
  exists bg, (avg_x - beta_bound), (avg_x + beta_bound).
  split; [by rewrite candidate_beta, Hp|]. split.
  { cbn. unfold bounds_1. rewrite lookup_set_if_empty_ne by done.
    by rewrite lookup_set_if_empty_eq, !lookup_set_if_empty_ne, Hb. }
  pose proof data_range_x as Hx'.
  destruct (linspace_elem_range _ _ _ Hx' Hbg) as [Hlo Hhi].
  fold min_beta max_beta in Hx'.
  destruct (max2_upper (5 / freq) span_x) as [_ Hw]. fold beta_bound in Hw.
  unfold span_x in Hw.
  assert (Em : avg_x == (max_beta + min_beta) * (1#2)) by (unfold avg_x; field).
  repeat split; try done;
    unfold min_beta, max_beta in *; rewrite Em; lra.
Qed.

(** X11: which series feeds the frequency estimate, ties included.  When
    the user gave no freq guess, every candidate's freq guess is the
    estimate on series-0 divided by its count if that count is at least the
    other two; else the one on series-1 if its count is at least that of
    series-2; else the one on series-2.  Among equal counts the earlier
    series is used. *)
Theorem generate_freq_series_choice :
  p0 user_opt !! "freq" = None →
  ∃ opts : list FitOptions,
    _generate_fit_guesses frequency self user_opt = Ok opts
    ∧ ∀ o, o ∈ opts →
        ((r1 <= r0)%Z → (r2 <= r0)%Z →
         p0 o !! "freq" = Some (frequency (x s0) (y s0) / inject_Z r0))
        ∧ ((r0 < r1)%Z → (r2 <= r1)%Z →
           p0 o !! "freq" = Some (frequency (x s1) (y s1) / inject_Z r1))
        ∧ ((r0 < r2)%Z → (r1 < r2)%Z →
           p0 o !! "freq" = Some (frequency (x s2) (y s2) / inject_Z r2)).
Proof.
  intros Hn. eexists. split; [apply generate_ok|]. intros o Ho.
  destruct (generate_elem _ o generate_ok Ho) as (af & bg & _ & _ & ->).
  rewrite candidate_freq. unfold freq. rewrite Hn. cbn.
  unfold freqs_guess, curve_data, reps, pick.
  repeat split; intros H1 H2;
    destruct (Z.ltb_spec r0 r1), (Z.ltb_spec r1 r2), (Z.ltb_spec r0 r2);
    first [reflexivity | lia].
Qed.

End GuessGenerator.

Section GuessGeneratorRuns.

Lemma generate_fan_out_witness :
  ∃ opts : list FitOptions,
    _generate_fit_guesses demo_frequency demo_analysis user_none = Ok opts
    ∧ length opts = 60%nat
    ∧ ∃ o, opts !! 21%nat = Some o
           ∧ p0 o !! "amp" = Some ((1 - 0) * -(1#2))
           ∧ ∃ bg, p0 o !! "beta" = Some bg ∧ bg == 3#38.
Proof.
  destruct (generate_fan_out demo_frequency demo_analysis user_none
              (demo_series (3#4)) (demo_series (1#2)) (demo_series (1#4))
              1 3 5)
    as (opts & Hgen & Hlen & Hidx & _);
    [reflexivity | reflexivity | reflexivity | reflexivity | reflexivity
    | reflexivity | discriminate | discriminate | discriminate
    | vm_compute; discriminate |].
  exists opts. split; [exact Hgen|]. split; [exact Hlen|].
  destruct (Hidx eq_refl eq_refl 1%nat 1%nat) as (o & af & bg & Ho & Haf & Hbg & Ha & Hb);
    [lia | lia |].
  injection Haf as <-.
  exists o. split; [exact Ho|]. split; [exact Ha|].
  exists bg. split; [exact Hb|]. rewrite Hbg. reflexivity.
Defined.

Lemma generate_freq_seed_witness :
  ∃ opts : list FitOptions,
    _generate_fit_guesses demo_frequency demo_analysis user_none = Ok opts
    ∧ length opts = 60%nat
    ∧ ∀ o, o ∈ opts → p0 o !! "freq" = Some ((5#2) / inject_Z 5).
Proof.
  destruct (generate_freq_seed demo_frequency demo_analysis user_none
              (demo_series (3#4)) (demo_series (1#2)) (demo_series (1#4))
              1 3 5)
    as (opts & Hgen & Hlen & _ & _ & _ & _ & Hnone & _);
    [reflexivity | reflexivity | reflexivity | reflexivity | reflexivity
    | reflexivity | discriminate | discriminate | discriminate
    | vm_compute; discriminate |].
  exists opts. split; [exact Hgen|]. split; [exact Hlen|].
  exact (Hnone eq_refl).
Defined.

Lemma generate_bounds_witness :
  ∃ opts : list FitOptions,
    _generate_fit_guesses demo_frequency demo_analysis user_none = Ok opts
    ∧ length opts = 60%nat
    ∧ ∀ o, o ∈ opts →
        bounds o !! "amp" = Some (Finite (-2 * (1 - 0)), Finite 0)
        ∧ bounds o !! "freq" = Some (Finite 0, PosInf).
Proof.
  destruct (generate_bounds demo_frequency demo_analysis user_none
              (demo_series (3#4)) (demo_series (1#2)) (demo_series (1#4))
              1 3 5)
    as (opts & Hgen & Hlen & Hall);
    [reflexivity | reflexivity | reflexivity | reflexivity | reflexivity
    | reflexivity | discriminate | discriminate | discriminate
    | vm_compute; discriminate |].
  exists opts. split; [exact Hgen|]. split; [exact Hlen|].
  intros o Ho.
  destruct (Hall o Ho) as (fg & w & _ & _ & _ & _ & _ & Hamp & Hfreq & _).
  split; [exact (Hamp eq_refl) | exact (Hfreq eq_refl)].
Defined.

Lemma generate_base_seed_witness :
  ∃ opts : list FitOptions,
    _generate_fit_guesses demo_frequency demo_analysis user_amp = Ok opts
    ∧ length opts = 60%nat
    ∧ ∀ o, o ∈ opts → p0 o !! "base" = Some (-(1#2)).
Proof.
  destruct (generate_base_seed demo_frequency demo_analysis user_amp
              (demo_series (3#4)) (demo_series (1#2)) (demo_series (1#4))
              1 3 5)
    as (opts & Hgen & Hlen & Hamp & _);
    [reflexivity | reflexivity | reflexivity | reflexivity | reflexivity
    | reflexivity | discriminate | discriminate | discriminate
    | vm_compute; discriminate | reflexivity |].
  exists opts. split; [exact Hgen|]. split; [exact Hlen|].
  apply (Hamp (-(1#2))); [reflexivity | discriminate].
Defined.

End GuessGeneratorRuns.

(** * Further properties of the post-processor and the quality evaluator *)

Section SmallRemainder.

Lemma Qmod_small_pos (a b : Q) : 0 < b → 0 <= a → a < b → Qmod a b == a.
Proof.
  intros Hb Hlo Hhi. unfold Qmod.
  assert (Hf : Qfloor (a / b) = 0%Z).
  { apply floor_unique.
    - apply Qle_shift_div_l; [done|]. change (inject_Z 0) with 0. lra.
    - apply Qlt_shift_div_r; [done|]. change (inject_Z (0 + 1)) with 1. lra. }
  rewrite Hf. change (inject_Z 0) with 0. ring.
Qed.

Lemma Qmod_small_neg (a b : Q) : b < 0 → b < a → a <= 0 → Qmod a b == a.
Proof.
  intros Hb Hlo Hhi. unfold Qmod.
  assert (E : a / b == (- a) / (- b)) by (field; lra).
  assert (Hf : Qfloor (a / b) = 0%Z).
  { rewrite (Qfloor_comp _ _ E). apply floor_unique.
    - apply Qle_shift_div_l; [lra|]. change (inject_Z 0) with 0. lra.
    - apply Qlt_shift_div_r; [lra|]. change (inject_Z (0 + 1)) with 1. lra. }
  rewrite Hf. change (inject_Z 0) with 0. ring.
Qed.

Lemma line_213_fixed_pos (beta freq : Q) :
  0 < freq → - (1 / (2 * freq)) <= beta → beta < 1 / (2 * freq) →
  line_213 beta freq == beta.
Proof.
  intros Hf Hlo Hhi. unfold line_213.
  rewrite half_period in Hlo, Hhi by lra.
  pose proof (period_pos _ Hf) as Hp.
  rewrite Qmod_small_pos; [ring | done | qlra | qlra].
Qed.

Lemma line_213_fixed_neg (beta freq : Q) :
  freq < 0 → 1 / (2 * freq) < beta → beta <= - (1 / (2 * freq)) →
  line_213 beta freq == beta.
Proof.
  intros Hf Hlo Hhi. unfold line_213.
  rewrite half_period in Hlo, Hhi by lra.
  pose proof (period_neg _ Hf) as Hp.
  rewrite Qmod_small_neg; [ring | done | qlra | qlra].
Qed.

Lemma line_213_idempotent (beta freq : Q) :
  ¬ freq == 0 → line_213 (line_213 beta freq) freq == line_213 beta freq.
Proof.
  intros Hnz. destruct (Q_dec freq 0) as [[Hneg | Hpos] | Hz]; [| |done].
  - destruct (line_213_range_neg beta freq Hneg).
    by apply line_213_fixed_neg.
  - destruct (line_213_range_pos beta freq Hpos).
    by apply line_213_fixed_pos.
Qed.

End SmallRemainder.

Section PostProcessorMore.

(** X1: post-processing is idempotent.  For a non-zero fitted frequency,
    post-processing the post-processed fit result succeeds again and stores
    the same beta; all the other entries of [popt] are kept. *)
Theorem post_process_idempotent (std : FitData → Q) (fd : FitData)
    (beta freq : Q) :
  nominal_value <$> popt fd !! 1%nat = Some freq →
  nominal_value <$> popt fd !! 2%nat = Some beta → ¬ freq == 0 →
  ∃ (r1 r2 : FitData) (n1 n2 : Q),
    _post_process_fit_result std fd = Ok r1
    ∧ _post_process_fit_result std r1 = Ok r2
    ∧ nominal_value <$> popt r1 !! 2%nat = Some n1
    ∧ nominal_value <$> popt r2 !! 2%nat = Some n2
    ∧ n2 == n1
    ∧ ∀ i : nat, i ≠ 2%nat → popt r2 !! i = popt r1 !! i.
Proof.
  intros H1 H2 Hnz.
  assert (Hlen : (2 < length (popt fd))%nat).
  { apply fmap_Some in H2 as (be & H2 & _). by eapply lookup_lt_Some. }
  set (n1 := line_213 beta freq).
  set (r1 := stored std fd n1).
  assert (Hr1 : _post_process_fit_result std fd = Ok r1)
    by (by apply post_process_ok).
  assert (H1' : nominal_value <$> popt r1 !! 1%nat = Some freq)
    by (unfold r1; by rewrite stored_lookup_other).
  assert (H2' : nominal_value <$> popt r1 !! 2%nat = Some n1)
    by (unfold r1; by rewrite stored_lookup_beta).
  assert (Hlen' : (2 < length (popt r1))%nat)
    by (cbn; by rewrite length_insert).
  exists r1, (stored std r1 (line_213 n1 freq)), n1, (line_213 n1 freq).
  split; [done|]. split; [by apply post_process_ok|]. split; [done|].
  split; [by rewrite stored_lookup_beta|].
  split; [by apply line_213_idempotent|].
  intros i Hi. by rewrite stored_lookup_other.
Qed.

Lemma post_process_idempotent_witness :
  nominal_value <$> popt fit_negative_freq !! 1%nat = Some (-1)
  ∧ nominal_value <$> popt fit_negative_freq !! 2%nat = Some (1#4)
  ∧ ¬ -1 == 0
  ∧ ∃ (r1 r2 : FitData) (n1 n2 : Q),
      _post_process_fit_result demo_std_dev fit_negative_freq = Ok r1
      ∧ _post_process_fit_result demo_std_dev r1 = Ok r2
      ∧ nominal_value <$> popt r1 !! 2%nat = Some n1
      ∧ nominal_value <$> popt r2 !! 2%nat = Some n2
      ∧ n2 == n1
      ∧ ∀ i : nat, i ≠ 2%nat → popt r2 !! i = popt r1 !! i.
Proof.
  split; [reflexivity|]. split; [reflexivity|]. split; [discriminate|].
  apply (post_process_idempotent demo_std_dev fit_negative_freq (1#4) (-1));
    [reflexivity | reflexivity | discriminate].
Defined.

(** X2: a beta that is already the canonical representative is kept.  For
    [freq > 0] and [-1/(2 freq) <= beta < 1/(2 freq)] the post-processor
    stores a value equal to beta. *)
Theorem post_process_keeps_canonical (std : FitData → Q) (fd : FitData)
    (beta freq : Q) :
  nominal_value <$> popt fd !! 1%nat = Some freq →
  nominal_value <$> popt fd !! 2%nat = Some beta → 0 < freq →
  - (1 / (2 * freq)) <= beta → beta < 1 / (2 * freq) →
  ∃ n : Q,
    _post_process_fit_result std fd = Ok (stored std fd n)
    ∧ n == beta.
Proof.
  intros H1 H2 Hf Hlo Hhi. exists (line_213 beta freq).
  split; [apply post_process_ok; auto; lra | by apply line_213_fixed_pos].
Qed.

Lemma post_process_keeps_canonical_witness :
  nominal_value <$> popt fit_two_periods !! 1%nat = Some (1#2)
  ∧ nominal_value <$> popt fit_two_periods !! 2%nat = Some (1#8) ∧ 0 < 1#2
  ∧ - (1 / (2 * (1#2))) <= 1#8 ∧ 1#8 < 1 / (2 * (1#2))
  ∧ ∃ n : Q,
      _post_process_fit_result demo_std_dev fit_two_periods
      = Ok (stored demo_std_dev fit_two_periods n)
      ∧ n == 1#8.
Proof.
  split; [reflexivity|]. split; [reflexivity|]. split; [reflexivity|].
  split; [discriminate|]. split; [reflexivity|].
  apply (post_process_keeps_canonical demo_std_dev fit_two_periods (1#8) (1#2));
    [reflexivity | reflexivity | reflexivity | discriminate | reflexivity].
Defined.

(** X3: a parameter vector without a third entry is rejected.  When [popt]
    has fewer than three entries, reading [popt[2]] raises [IndexError] and
    no fit result is returned. *)
Theorem post_process_short_popt (std : FitData → Q) (fd : FitData) :
  (length (popt fd) < 3)%nat →
  _post_process_fit_result std fd = Raise IndexError.
Proof.
  intros Hlen. unfold _post_process_fit_result, Py.getitem.
  by rewrite (lookup_ge_None_2 (popt fd) 2) by lia.
Qed.

Lemma post_process_short_popt_witness :
  (length (popt fit_short) < 3)%nat
  ∧ _post_process_fit_result demo_std_dev fit_short = Raise IndexError.
Proof.
  split; [cbn; lia|].
  apply (post_process_short_popt demo_std_dev fit_short). cbn. lia.
Defined.

End PostProcessorMore.

Section QualityMore.

Variable is_error_not_significant : FitVal → bool.

(** X4: quality of a post-processed fit.  Take a fit result whose keys put
    freq at index 1 and beta at index 2, with fitted frequency [freq > 0].
    After post-processing, the evaluator reads as beta the stored value
    with the uncertainty propagated to it, and returns "good" exactly when
    the reduced chi-squared is below 3, the uncertainty comparison accepts
    that stored beta, and the stored value is not the lower end
    [-1/(2 freq)] of the canonical window; otherwise it returns "bad". *)
Theorem post_process_then_quality (std : FitData → Q) (fd : FitData)
    (beta freq : Q) :
  index (popt_keys fd) "freq" = Ok 1%nat →
  index (popt_keys fd) "beta" = Ok 2%nat →
  nominal_value <$> popt fd !! 1%nat = Some freq →
  nominal_value <$> popt fd !! 2%nat = Some beta →
  0 < freq →
  ∃ (r : FitData) (n : Q),
    _post_process_fit_result std fd = Ok r
    ∧ fitval r "beta" = Ok (ufloat n (std fd))
    ∧ (_evaluate_quality is_error_not_significant r = Ok "good"
       ↔ reduced_chisq fd < 3
         ∧ ¬ n == - (1 / (2 * freq))
         ∧ is_error_not_significant (ufloat n (std fd)) = true)
    ∧ (_evaluate_quality is_error_not_significant r = Ok "good"
       ∨ _evaluate_quality is_error_not_significant r = Ok "bad").
Proof.
  intros Hif Hib H1 H2 Hf.
  assert (Hnz : ¬ freq == 0) by lra.
  set (n := line_213 beta freq).
  assert (Hr : _post_process_fit_result std fd = Ok (stored std fd n))
    by (by apply post_process_ok).
  destruct (completed_fitvals std fd _ Hif Hib Hr)
    as (be & fe & E2 & E1 & _ & _ & Hb & Hfv).
  rewrite E1 in H1. rewrite E2 in H2. cbn in H1, H2.
  injection H1 as H1. injection H2 as H2. rewrite H1, H2 in Hb. fold n in Hb.
  set (r := stored std fd n) in *.
  set (b := ufloat n (std fd)) in *.
  assert (Hnz' : ¬ nominal_value fe == 0) by (by rewrite H1).
  exists r, n. split; [done|]. split; [done|].
  rewrite (evaluate_quality_unfold _ r b fe Hb Hfv Hnz').
  destruct (line_213_range_pos beta freq Hf) as [Hlo Hhi]. fold n in Hlo, Hhi.
  assert (Habs : Qabs n < 1 / (2 * freq) ↔ ¬ n == - (1 / (2 * freq))).
  { split.
    - intros Ha Heq. rewrite Heq, Qabs_opp in Ha.
      pose proof (Qle_Qabs (1 / (2 * freq))). lra.
    - intros Hne. apply Qabs_case; intros _; [done|].
      destruct (Qlt_le_dec (- n) (1 / (2 * freq))) as [|Hge]; [done|].
      exfalso. apply Hne. lra. }
  assert (Hcrit : criteria_hold is_error_not_significant (reduced_chisq r) b fe
                  ↔ reduced_chisq fd < 3 ∧ ¬ n == - (1 / (2 * freq))
                    ∧ is_error_not_significant b = true).
  { unfold criteria_hold. rewrite H1. cbn [nominal_value b ufloat].
    rewrite Habs. reflexivity. }
  destruct (Py.lt (reduced_chisq r) 3 && _) eqn:E.
  - split; [|by left]. split; [|done]. intros _.
    apply (criteria_reflect is_error_not_significant r b fe Hnz') in E.
    by apply Hcrit.
  - split; [|by right]. split; [discriminate|].
    intros Hall. apply Hcrit in Hall.
    apply (criteria_reflect is_error_not_significant r b fe Hnz') in Hall.
    congruence.
Qed.

(** X5: a fit with a negative fitted frequency is never good.  When the
    fitted frequency is below zero the bound [1/(2 freq)] is negative, so
    the second criterion fails and the evaluator returns "bad", whatever
    the chi-squared and the uncertainty comparison say. *)
Theorem evaluate_quality_negative_freq (fd : FitData) (b f : FitVal) :
  fitval fd "beta" = Ok b → fitval fd "freq" = Ok f → nominal_value f < 0 →
  _evaluate_quality is_error_not_significant fd = Ok "bad".
Proof.
  intros Hb Hf Hneg.
  assert (Hnz : ¬ nominal_value f == 0) by lra.
  rewrite (evaluate_quality_unfold _ fd b f Hb Hf Hnz).
  destruct (Py.lt (reduced_chisq fd) 3 && _) eqn:E; [|done].
  apply (criteria_reflect is_error_not_significant fd b f Hnz) in E.
  destruct E as (_ & Ha & _).
  pose proof (Qabs_nonneg (nominal_value b)).
  pose proof (period_neg _ Hneg). rewrite half_period in Ha by done.
  exfalso. qlra.
Qed.

End QualityMore.

Section QualityMoreRuns.

Lemma post_process_then_quality_witness :
  ∃ (r : FitData) (n : Q),
    _post_process_fit_result demo_std_dev fit_two_periods = Ok r
    ∧ fitval r "beta" = Ok (ufloat n (demo_std_dev fit_two_periods))
    ∧ (_evaluate_quality (fun v => Py.lt (std_dev v) (1#100)) r = Ok "good"
       ↔ reduced_chisq fit_two_periods < 3
         ∧ ¬ n == - (1 / (2 * (1#2)))
         ∧ Py.lt (std_dev (ufloat n (demo_std_dev fit_two_periods))) (1#100)
           = true)
    ∧ (_evaluate_quality (fun v => Py.lt (std_dev v) (1#100)) r = Ok "good"
       ∨ _evaluate_quality (fun v => Py.lt (std_dev v) (1#100)) r = Ok "bad")
    ∧ _evaluate_quality (fun v => Py.lt (std_dev v) (1#100)) r = Ok "bad"
    ∧ _evaluate_quality (fun v => Py.lt (std_dev v) (1#100)) fit_two_periods
      = Ok "good".
Proof.
  destruct (post_process_then_quality (fun v => Py.lt (std_dev v) (1#100))
              demo_std_dev fit_two_periods (1#8) (1#2))
    as (r & n & Hr & Hb & Hiff & Hl);
    [reflexivity | reflexivity | reflexivity | reflexivity | reflexivity |].
  exists r, n. split; [exact Hr|]. split; [exact Hb|]. split; [exact Hiff|].
  split; [exact Hl|]. split; [|vm_compute; reflexivity].
  destruct Hl as [Hg | Hbad]; [|exact Hbad].
  apply Hiff in Hg. destruct Hg as (_ & _ & Hs). vm_compute in Hs. discriminate.
Defined.

Lemma evaluate_quality_negative_freq_witness :
  fitval fit_negative_freq "freq" = Ok (ufloat (-1) (1#128))
  ∧ -1 < 0
  ∧ _evaluate_quality (fun _ => true) fit_negative_freq = Ok "bad".
Proof.
  split; [reflexivity|]. split; [reflexivity|].
  apply (evaluate_quality_negative_freq (fun _ => true) fit_negative_freq
           (ufloat (1#4) (1#128)) (ufloat (-1) (1#128)));
    reflexivity.
Defined.

End QualityMoreRuns.

(** * Failures of the guess generator *)

Section GuessGeneratorFailures.

Variable frequency : list Q → list Q → Q.
Variable self : Analysis.
Variable user_opt : FitOptions.

(** X12: no scan, no guesses.  When series-0 holds no sample, taking the
    minimum of its x values raises [ValueError] and no candidate is
    produced. *)
Theorem generate_empty_scan (s0 : CurveData) :
  _data self "series-0" = Ok s0 → x s0 = [] →
  _generate_fit_guesses frequency self user_opt = Raise ValueError.
Proof.
  intros Hs0 Hx. unfold _generate_fit_guesses. rewrite Hs0. bind_ok.
  by rewrite Hx.
Qed.

(** X13: the three repetition counts must be fixed.  When series-0 has
    samples and one of reps0, reps1, reps2 is absent from the fixed
    parameters, looking it up while choosing the series raises [KeyError]
    and no candidate is produced. *)
Theorem generate_missing_reps (s0 : CurveData) :
  _data self "series-0" = Ok s0 → x s0 ≠ [] →
  fixed_parameters self !! "reps0" = None
  ∨ fixed_parameters self !! "reps1" = None
  ∨ fixed_parameters self !! "reps2" = None →
  _generate_fit_guesses frequency self user_opt = Raise KeyError.
Proof.
  intros Hs0 Hx Hmiss. unfold _generate_fit_guesses. rewrite Hs0. bind_ok.
  rewrite (min_ok (x s0)), (max_ok (x s0)) by done. repeat bind_ok.
  assert (Hsel : max_by_key
            (fun l : string * string => Py.lookup_key (fixed_parameters self) l.2)
            ("series-0", "reps0") [("series-1", "reps1"); ("series-2", "reps2")]
          = Raise KeyError).
  { unfold max_by_key, max_scan, Py.lookup_key. cbn.
    destruct (fixed_parameters self !! "reps0") as [r0|] eqn:E0; [|done]. cbn.
    destruct (fixed_parameters self !! "reps1") as [r1|] eqn:E1; [|done]. cbn.
    destruct (fixed_parameters self !! "reps2") as [r2|] eqn:E2.
    - by destruct Hmiss as [? | [? | ?]].
    - by destruct (r0 <? r1)%Z. }
  by rewrite Hsel.
Qed.

End GuessGeneratorFailures.

Section GuessGeneratorZeroFreq.

Variable frequency : list Q → list Q → Q.
Variable self : Analysis.
Variable user_opt : FitOptions.
Variables s0 s1 s2 : CurveData.
Variables r0 r1 r2 : Z.

Hypothesis Hs0 : _data self "series-0" = Ok s0.
Hypothesis Hs1 : _data self "series-1" = Ok s1.
Hypothesis Hs2 : _data self "series-2" = Ok s2.
Hypothesis Hr0 : fixed_parameters self !! "reps0" = Some r0.
Hypothesis Hr1 : fixed_parameters self !! "reps1" = Some r1.
Hypothesis Hr2 : fixed_parameters self !! "reps2" = Some r2.
Hypothesis Hx : x s0 ≠ [].
Hypothesis Hreps : pick r0 r1 r2 r0 r1 r2 ≠ 0%Z.

(** X14: a zero frequency guess from the user stops the generator.  With
    well-formed data, when the user's freq guess is zero the beta bound
    [5 / freq] cannot be computed: the division raises [ZeroDivisionError]
    and no candidate is produced. *)
Theorem generate_zero_freq_guess (f : Q) :
  p0 user_opt !! "freq" = Some f → f == 0 →
  _generate_fit_guesses frequency self user_opt = Raise ZeroDivisionError.
Proof.
  intros Hf Hz. unfold _generate_fit_guesses. rewrite Hs0. bind_ok.
  rewrite !(min_ok (x s0)), !(max_ok (x s0)) by done. repeat bind_ok.
  rewrite (select_ok self r0 r1 r2 Hr0 Hr1 Hr2). bind_ok.
  rewrite (selected_data self s0 s1 s2 r0 r1 r2 Hs0 Hs1 Hs2). bind_ok.
  rewrite (selected_reps self r0 r1 r2 Hr0 Hr1 Hr2). bind_ok.
  rewrite div_ok
    by (change 0 with (inject_Z 0); rewrite inject_Z_injective; exact Hreps).
  repeat bind_ok. rewrite div_ok by (intros H; discriminate). bind_ok.
  rewrite lookup_set_if_empty_eq, Hf. bind_ok. cbn [default from_option].
  by rewrite div_zero.
Qed.

End GuessGeneratorZeroFreq.

Section GuessGeneratorDefaults.

Variable frequency : list Q → list Q → Q.
Variable self : Analysis.
Variable user_opt : FitOptions.
Variables s0 s1 s2 : CurveData.

Hypothesis Hs0 : _data self "series-0" = Ok s0.
Hypothesis Hs1 : _data self "series-1" = Ok s1.
Hypothesis Hs2 : _data self "series-2" = Ok s2.
Hypothesis Hdef : fixed_parameters self = default_fixed_parameters.
Hypothesis Hx : x s0 ≠ [].
Hypothesis Hy : y (_data_all self) ≠ [].

(** X15: with the default options the estimate comes from series-2.  Under
    the default fixed parameters (reps0 = 1, reps1 = 3, reps2 = 5), without
    a freq guess from the user and with a non-zero estimate, the generator
    returns its 60 candidates and the freq guess of each is the frequency
    estimate on series-2 divided by 5. *)
Theorem generate_default_options :
  p0 user_opt !! "freq" = None →
  ¬ frequency (x s2) (y s2) == 0 →
  ∃ opts : list FitOptions,
    _generate_fit_guesses frequency self user_opt = Ok opts
    ∧ length opts = 60%nat
    ∧ ∀ o, o ∈ opts → p0 o !! "freq" = Some (frequency (x s2) (y s2) / 5).
Proof.
  intros Hn Hest.
  assert (Hr0 : fixed_parameters self !! "reps0" = Some 1%Z) by (by rewrite Hdef).
  assert (Hr1 : fixed_parameters self !! "reps1" = Some 3%Z) by (by rewrite Hdef).
  assert (Hr2 : fixed_parameters self !! "reps2" = Some 5%Z) by (by rewrite Hdef).
  assert (Hreps : pick 1 3 5 1%Z 3%Z 5%Z ≠ 0%Z) by done.
  assert (Hfreq : ¬ default
                      (frequency (x (pick 1 3 5 s0 s1 s2)) (y (pick 1 3 5 s0 s1 s2))
                       / inject_Z (pick 1 3 5 1%Z 3%Z 5%Z))
                      (p0 user_opt !! "freq") == 0).
  { rewrite Hn. cbn. intros H. apply Hest.
    assert (E : frequency (x s2) (y s2)
                == 5 * (frequency (x s2) (y s2) / 5)) by field.
    rewrite E. change (inject_Z 5) with 5 in H. rewrite H. ring. }
  pose proof (generate_ok frequency self user_opt s0 s1 s2 1 3 5
                Hs0 Hs1 Hs2 Hr0 Hr1 Hr2 Hx Hy Hreps Hfreq) as Hgen.
  eexists. split; [exact Hgen|].
  split; [exact (generate_length frequency self user_opt s0 s1 s2 1 3 5
                   Hs0 Hs1 Hs2 Hr0 Hr1 Hr2 Hx Hy Hreps Hfreq _ Hgen)|].
  intros o Ho.
  destruct (generate_elem frequency self user_opt s0 s1 s2 1 3 5
              Hs0 Hs1 Hs2 Hr0 Hr1 Hr2 Hx Hy Hreps Hfreq _ o Hgen Ho)
    as (af & bg & _ & _ & ->).
  rewrite (candidate_freq frequency self user_opt s0 s1 s2 1 3 5).
  by rewrite Hn.
Qed.

End GuessGeneratorDefaults.

(** * The series model and the post-processor *)

Section SeriesModel.

Import DragSeries.
Local Open Scope R_scope.

Lemma cos_period_Z (t : R) (k : Z) :
  Rtrigo_def.cos (t + 2 * IZR k * PI) = Rtrigo_def.cos t.
Proof.
  destruct (Z_le_gt_dec 0 k) as [Hk | Hk].
  - rewrite <- (Z2Nat.id k Hk), <- INR_IZR_INZ. apply cos_period.
  - rewrite <- (cos_period (t + 2 * IZR k * PI) (Z.to_nat (- k))).
    f_equal. rewrite INR_IZR_INZ, Z2Nat.id by lia. rewrite opp_IZR. ring.
Qed.

(** A shift of beta by [k / freq] moves the phase of a series whose
    repetition count is the integer [m] by [m k] whole turns. *)
Lemma cos_model_shift (t amp freq beta base : R) (m k : Z) :
  freq <> 0 →
  FitFunction.cos t amp (IZR m * freq)
    (-2 * PI * IZR m * freq * (beta + IZR k / freq)) base
  = FitFunction.cos t amp (IZR m * freq) (-2 * PI * IZR m * freq * beta) base.
Proof.
  intros Hf. unfold FitFunction.cos. f_equal. f_equal.
  rewrite <- (cos_period_Z (2 * PI * (IZR m * freq) * t
                            + -2 * PI * IZR m * freq * beta) (- (m * k))).
  f_equal. rewrite opp_IZR, mult_IZR. field. exact Hf.
Qed.

(** X16: the model is periodic in beta.  For integer repetition counts and
    a non-zero frequency, shifting beta by a whole number of periods
    [1/freq] changes none of the three fit functions, at any x. *)
Theorem series_periodic_in_beta (t amp freq beta base : R) (m0 m1 m2 k : Z) :
  freq <> 0 →
  series_0 t amp freq (IZR m0) (IZR m1) (IZR m2) (beta + IZR k / freq) base
  = series_0 t amp freq (IZR m0) (IZR m1) (IZR m2) beta base
  ∧ series_1 t amp freq (IZR m0) (IZR m1) (IZR m2) (beta + IZR k / freq) base
    = series_1 t amp freq (IZR m0) (IZR m1) (IZR m2) beta base
  ∧ series_2 t amp freq (IZR m0) (IZR m1) (IZR m2) (beta + IZR k / freq) base
    = series_2 t amp freq (IZR m0) (IZR m1) (IZR m2) beta base.
Proof.
  intros Hf. unfold series_0, series_1, series_2.
  repeat split; by apply cos_model_shift.
Qed.

(** X17: where the curves meet.  At every x with
    [reps * freq * (x - beta)] an integer, in particular at [x = beta], a
    series takes the value [amp + base]; at [x = beta] all three do. *)
Theorem series_value_at_beta (t amp freq reps0 reps1 reps2 beta base : R)
    (N : Z) :
  (reps0 * freq * (t - beta) = IZR N →
   series_0 t amp freq reps0 reps1 reps2 beta base = amp + base)
  ∧ (reps1 * freq * (t - beta) = IZR N →
     series_1 t amp freq reps0 reps1 reps2 beta base = amp + base)
  ∧ (reps2 * freq * (t - beta) = IZR N →
     series_2 t amp freq reps0 reps1 reps2 beta base = amp + base)
  ∧ series_0 beta amp freq reps0 reps1 reps2 beta base = amp + base
  ∧ series_1 beta amp freq reps0 reps1 reps2 beta base = amp + base
  ∧ series_2 beta amp freq reps0 reps1 reps2 beta base = amp + base.
Proof.
  assert (Hint : ∀ r u : R, r * freq * (u - beta) = IZR N →
            FitFunction.cos u amp (r * freq) (-2 * PI * r * freq * beta) base
            = amp + base).
  { intros r u Hr. unfold FitFunction.cos.
    replace (2 * PI * (r * freq) * u + -2 * PI * r * freq * beta)
      with (0 + 2 * IZR N * PI) by (rewrite <- Hr; ring).
    rewrite cos_period_Z, cos_0. ring. }
  assert (Hat : ∀ r : R,
            FitFunction.cos beta amp (r * freq) (-2 * PI * r * freq * beta) base
            = amp + base).
  { intros r. unfold FitFunction.cos.
    replace (2 * PI * (r * freq) * beta + -2 * PI * r * freq * beta)
      with 0 by ring.
    rewrite cos_0. ring. }
  unfold series_0, series_1, series_2. repeat split; auto.
Qed.

(** X18: a non-positive amplitude makes [amp + base] the minimum.  When
    [amp <= 0], every value of each fit function lies between
    [amp + base], the value at [x = beta], and [base - amp]. *)
Theorem series_minimum_at_beta (t amp freq reps0 reps1 reps2 beta base : R) :
  amp <= 0 →
  (amp + base <= series_0 t amp freq reps0 reps1 reps2 beta base
   ∧ series_0 t amp freq reps0 reps1 reps2 beta base <= base - amp)
  ∧ (amp + base <= series_1 t amp freq reps0 reps1 reps2 beta base
     ∧ series_1 t amp freq reps0 reps1 reps2 beta base <= base - amp)
  ∧ (amp + base <= series_2 t amp freq reps0 reps1 reps2 beta base
     ∧ series_2 t amp freq reps0 reps1 reps2 beta base <= base - amp).
Proof.
  intros Ha.
  assert (Hb : ∀ f p : R,
            amp + base <= FitFunction.cos t amp f p base
            ∧ FitFunction.cos t amp f p base <= base - amp).
  { intros f p. unfold FitFunction.cos.
    destruct (COS_bound (2 * PI * f * t + p)) as [Hlo Hhi].
    set (c := Rtrigo_def.cos _) in *.
    assert (H1 : 0 <= (- amp) * (1 - c)) by (apply Rmult_le_pos; Lra.lra).
    assert (H2 : 0 <= (- amp) * (c + 1)) by (apply Rmult_le_pos; Lra.lra).
    split; Lra.lra. }
  unfold series_0, series_1, series_2. repeat split; apply Hb.
Qed.

End SeriesModel.

Section PostProcessorAndModel.

Import DragSeries.

Lemma Q2R_inject_Z (k : Z) : Q2R (inject_Z k) = IZR k.
Proof. unfold Q2R, inject_Z. cbn. rewrite Rinv_1. apply Rmult_1_r. Qed.

Lemma Q2R_nonzero (q : Q) : ¬ q == 0 → Q2R q ≠ 0%R.
Proof.
  intros Hq H. apply Hq. apply eqR_Qeq. by rewrite H, RMicromega.Q2R_0.
Qed.

Lemma line_213_real (beta freq : Q) :
  ¬ freq == 0 →
  ∃ k : Z, Q2R (line_213 beta freq) = (Q2R beta + IZR k / Q2R freq)%R.
Proof.
  intros Hf. destruct (line_213_congruent beta freq) as [k Hk].
  exists k. rewrite (Qeq_eqR _ _ Hk).
  rewrite Q2R_plus, Q2R_mult, Q2R_inject_Z, Q2R_div by done.
  rewrite RMicromega.Q2R_1. unfold Rdiv. by rewrite Rmult_1_l.
Qed.

(** X19: post-processing does not change the fitted curves.  For a fit
    result with a non-zero fitted frequency and integer repetition counts,
    each of the three fit functions takes, at every x, the same value with
    the beta stored by the post-processor as with the fitted beta. *)
Theorem post_process_preserves_model (std : FitData → Q) (fd : FitData)
    (beta freq : Q) :
  nominal_value <$> popt fd !! 1%nat = Some freq →
  nominal_value <$> popt fd !! 2%nat = Some beta → ¬ freq == 0 →
  ∃ n : Q,
    _post_process_fit_result std fd = Ok (stored std fd n)
    ∧ ∀ (t amp base : R) (m0 m1 m2 : Z),
        series_0 t amp (Q2R freq) (IZR m0) (IZR m1) (IZR m2) (Q2R n) base
        = series_0 t amp (Q2R freq) (IZR m0) (IZR m1) (IZR m2) (Q2R beta) base
        ∧ series_1 t amp (Q2R freq) (IZR m0) (IZR m1) (IZR m2) (Q2R n) base
          = series_1 t amp (Q2R freq) (IZR m0) (IZR m1) (IZR m2) (Q2R beta) base
        ∧ series_2 t amp (Q2R freq) (IZR m0) (IZR m1) (IZR m2) (Q2R n) base
          = series_2 t amp (Q2R freq) (IZR m0) (IZR m1) (IZR m2) (Q2R beta) base.
Proof.
  intros H1 H2 Hf. exists (line_213 beta freq).
  split; [by apply post_process_ok|].
  destruct (line_213_real beta freq Hf) as [k ->].
  intros t amp base m0 m1 m2. unfold series_0, series_1, series_2.
  pose proof (Q2R_nonzero freq Hf).
  repeat split; by apply cos_model_shift.
Qed.

End PostProcessorAndModel.

(** * Runs of the further properties *)

Section FurtherRuns.

Import DragSeries.

Ltac demo_run :=
  first [reflexivity | discriminate | (vm_compute; discriminate)].

Lemma generate_keeps_user_values_witness :
  ∃ opts : list FitOptions,
    _generate_fit_guesses demo_frequency demo_analysis user_amp_bounded = Ok opts
    ∧ ∀ o, o ∈ opts →
        p0 o !! "amp" = Some (-(1#2))
        ∧ bounds o !! "amp" = Some (Finite (-1), Finite 0).
Proof.
  destruct (generate_keeps_user_values demo_frequency demo_analysis
              user_amp_bounded (demo_series (3#4)) (demo_series (1#2))
              (demo_series (1#4)) 1 3 5)
    as (opts & Hgen & Hall); [demo_run ..|].
  exists opts. split; [exact Hgen|]. intros o Ho.
  destruct (Hall o Ho) as [Hp Hb].
  split; [apply Hp | apply Hb]; reflexivity.
Defined.

Lemma generate_complete_witness :
  ∃ opts : list FitOptions,
    _generate_fit_guesses demo_frequency demo_analysis user_none = Ok opts
    ∧ ∀ o, o ∈ opts → is_Some (p0 o !! "base") ∧ is_Some (bounds o !! "base").
Proof.
  destruct (generate_complete demo_frequency demo_analysis user_none
              (demo_series (3#4)) (demo_series (1#2)) (demo_series (1#4))
              1 3 5)
    as (opts & Hgen & Hall); [demo_run ..|].
  exists opts. split; [exact Hgen|]. intros o Ho.
  apply (Hall o "base" Ho).
  repeat first [apply list_elem_of_here | apply list_elem_of_further].
Defined.

Lemma generate_varies_amp_beta_only_witness :
  ∃ opts : list FitOptions,
    _generate_fit_guesses demo_frequency demo_analysis user_none = Ok opts
    ∧ ∀ o1 o2, o1 ∈ opts → o2 ∈ opts →
        bounds o1 = bounds o2 ∧ p0 o1 !! "freq" = p0 o2 !! "freq".
Proof.
  destruct (generate_varies_amp_beta_only demo_frequency demo_analysis
              user_none (demo_series (3#4)) (demo_series (1#2))
              (demo_series (1#4)) 1 3 5)
    as (opts & Hgen & Hpair & _); [demo_run ..|].
  exists opts. split; [exact Hgen|]. intros o1 o2 Ho1 Ho2.
  destruct (Hpair o1 o2 Ho1 Ho2) as [Hb Hp].
  split; [exact Hb | apply Hp; discriminate].
Defined.

Lemma generate_amp_within_bounds_witness :
  ∃ opts : list FitOptions,
    _generate_fit_guesses demo_frequency demo_analysis user_none = Ok opts
    ∧ ∀ o, o ∈ opts →
        ∃ a lo : Q,
          p0 o !! "amp" = Some a
          ∧ bounds o !! "amp" = Some (Finite lo, Finite 0)
          ∧ lo <= a ∧ a <= 0.
Proof.
  apply (generate_amp_within_bounds demo_frequency demo_analysis user_none
           (demo_series (3#4)) (demo_series (1#2)) (demo_series (1#4))
           1 3 5); demo_run.
Defined.

Lemma generate_beta_within_bounds_witness :
  ∃ opts : list FitOptions,
    _generate_fit_guesses demo_frequency demo_analysis user_none = Ok opts
    ∧ ∀ o, o ∈ opts →
        ∃ b lo hi : Q,
          p0 o !! "beta" = Some b
          ∧ bounds o !! "beta" = Some (Finite lo, Finite hi)
          ∧ 0 <= b ∧ b <= 3#2 ∧ lo <= b ∧ b <= hi.
Proof.
  apply (generate_beta_within_bounds demo_frequency demo_analysis user_none
           (demo_series (3#4)) (demo_series (1#2)) (demo_series (1#4))
           1 3 5); demo_run.
Defined.

Lemma generate_freq_series_choice_witness :
  ∃ opts : list FitOptions,
    _generate_fit_guesses demo_frequency demo_analysis user_none = Ok opts
    ∧ ∀ o, o ∈ opts →
        p0 o !! "freq"
        = Some (demo_frequency (x (demo_series (1#4))) (y (demo_series (1#4)))
                / inject_Z 5).
Proof.
  destruct (generate_freq_series_choice demo_frequency demo_analysis user_none
              (demo_series (3#4)) (demo_series (1#2)) (demo_series (1#4))
              1 3 5)
    as (opts & Hgen & Hall); [demo_run ..|].
  exists opts. split; [exact Hgen|]. intros o Ho.
  destruct (Hall o Ho) as (_ & _ & H2). apply H2; reflexivity.
Defined.

Lemma generate_empty_scan_witness :
  _generate_fit_guesses demo_frequency empty_analysis user_none
  = Raise ValueError.
Proof.
  apply (generate_empty_scan demo_frequency empty_analysis user_none
           {| x := []; y := [] |}); reflexivity.
Defined.

Lemma generate_missing_reps_witness :
  fixed_parameters analysis_without_reps1 !! "reps1" = None
  ∧ _generate_fit_guesses demo_frequency analysis_without_reps1 user_none
    = Raise KeyError.
Proof.
  split; [reflexivity|].
  apply (generate_missing_reps demo_frequency analysis_without_reps1 user_none
           (demo_series (3#4)));
    [reflexivity | discriminate | right; left; reflexivity].
Defined.

Lemma generate_zero_freq_guess_witness :
  p0 user_zero_freq !! "freq" = Some 0
  ∧ _generate_fit_guesses demo_frequency demo_analysis user_zero_freq
    = Raise ZeroDivisionError.
Proof.
  split; [reflexivity|].
  apply (generate_zero_freq_guess demo_frequency demo_analysis user_zero_freq
           (demo_series (3#4)) (demo_series (1#2)) (demo_series (1#4))
           1 3 5 eq_refl eq_refl eq_refl eq_refl eq_refl eq_refl) with (f := 0);
    demo_run.
Defined.

Lemma generate_default_options_witness :
  ∃ opts : list FitOptions,
    _generate_fit_guesses demo_frequency demo_analysis user_none = Ok opts
    ∧ length opts = 60%nat
    ∧ ∀ o, o ∈ opts → p0 o !! "freq" = Some ((5#2) / 5).
Proof.
  apply (generate_default_options demo_frequency demo_analysis user_none
           (demo_series (3#4)) (demo_series (1#2)) (demo_series (1#4)));
    demo_run.
Defined.

Lemma series_periodic_in_beta_witness :
  (2 <> 0
   ∧ series_2 1 (-1) 2 (IZR 1) (IZR 3) (IZR 5) (0 + IZR 7 / 2) 0
     = series_2 1 (-1) 2 (IZR 1) (IZR 3) (IZR 5) 0 0)%R.
Proof.
  assert (H : (2 <> 0)%R) by Lra.lra. split; [exact H|].
  apply (series_periodic_in_beta 1%R (-1)%R 2%R 0%R 0%R 1%Z 3%Z 5%Z 7%Z H).
Defined.

Lemma series_value_at_beta_witness :
  (series_1 1 (-1) 2 1 3 5 1 (/ 2) = -1 + / 2)%R.
Proof.
  apply (series_value_at_beta 1%R (-1)%R 2%R 1%R 3%R 5%R 1%R (/ 2)%R 0%Z).
Defined.

Lemma series_minimum_at_beta_witness :
  (-1 <= 0 ∧ -1 + 0 <= series_0 3 (-1) 2 1 3 5 1 0)%R.
Proof.
  assert (H : (-1 <= 0)%R) by Lra.lra. split; [exact H|].
  apply (series_minimum_at_beta 3%R (-1)%R 2%R 1%R 3%R 5%R 1%R 0%R H).
Defined.

Lemma post_process_preserves_model_witness :
  ∃ n : Q,
    _post_process_fit_result demo_std_dev fit_two_periods
    = Ok (stored demo_std_dev fit_two_periods n)
    ∧ ∀ t : R,
        series_2 t (-1)%R (Q2R (1#2)) (IZR 1) (IZR 3) (IZR 5) (Q2R n) 0%R
        = series_2 t (-1)%R (Q2R (1#2)) (IZR 1) (IZR 3) (IZR 5) (Q2R (1#8)) 0%R.
Proof.
  destruct (post_process_preserves_model demo_std_dev fit_two_periods
              (1#8) (1#2))
    as (n & Hn & Hall); [reflexivity | reflexivity | discriminate |].
  exists n. split; [exact Hn|]. intros t. apply (Hall t (-1)%R 0%R 1%Z 3%Z 5%Z).
Defined.

End FurtherRuns.
